(** * ipvs: a handle on the kernel's IP Virtual Server, over generic netlink

    A shallow embedding of [ipvs.go] (package [ipvs]).  The file has three
    layers:

    - the value types of the package and their [String] methods;
    - the netlink transport and the namespace resolver the package drives
      (external collaborators), as a [World] threaded through a small
      state monad whose computations may also panic, the way a Go method
      called through a nil pointer does;
    - the public methods of [Handle], written against the helpers of
      [netlink.go] (the interface [Netlink]), and a model of those helpers.

    Unsigned Go integers are [Z] values with their wrap-around written out
    where the code converts or increments. *)

From Stdlib Require Import ZArith String Strings.Byte DecimalString Lia.
From Stdlib Require Import Ascii DecimalZ DecimalPos.
From stdpp Require Import base option list strings.

Local Open Scope Z_scope.

(** ** Go scalars, formatting and errors *)

(** [uint(x)]: conversion to the 64-bit unsigned type. *)
Definition to_uint (x : Z) : Z := x mod 2 ^ 64.

(** [uint32] increment, as [atomic.AddUint32] and [++] do it. *)
Definition uint32_succ (x : Z) : Z := (x + 1) mod 2 ^ 32.

(** The verb [%d] of package [fmt] on an integer. *)
Definition fmt_d (z : Z) : string := NilZero.string_of_int (Z.to_int z).

(** A Go [error] value; a nil error is [None] of [option error]. *)
Inductive error : Type :=
| errorString (msg : string)
| Errno (code : Z).

(** [time.Duration] counts nanoseconds. *)
Definition Duration := Z.
Definition Second : Duration := 1000000000.
Definition Nanoseconds (d : Duration) : Z := d.

Definition netlinkRecvSocketsTimeout : Duration := 3 * Second.
Definition netlinkSendSocketTimeout : Duration := 30 * Second.

(** ** IPProto *)

(** [type IPProto uint16] *)
Definition IPProto := Z.

Definition IPPROTO_TCP : IPProto := 6.
Definition IPPROTO_UDP : IPProto := 17.

Definition IPProto_String (p : IPProto) : string :=
  if p =? IPPROTO_TCP then "TCP"
  else if p =? IPPROTO_UDP then "UDP"
  else "IP(" +:+ fmt_d p +:+ ")".

Definition IPProto_Value (p : IPProto) : Z := p.

(** ** net.IP *)

Definition IP := list byte.

Definition IPv4len : nat := 4.
Definition IPv6len : nat := 16.

Definition isZeros (p : list byte) : bool := forallb (Byte.eqb x00) p.

Definition byte_at (ip : IP) (i : nat) (b : byte) : bool :=
  match ip !! i with
  | Some c => Byte.eqb c b
  | None => false
  end.

(** [ip.To4()]; the nil slice is [None]. *)
Definition To4 (ip : IP) : option IP :=
  if Nat.eqb (length ip) IPv4len then Some ip
  else if Nat.eqb (length ip) IPv6len
          && isZeros (take 10 ip) && byte_at ip 10 xff && byte_at ip 11 xff
       then Some (take 4 (drop 12 ip))
       else None.

(** ** The entities *)

Record SvcStats : Type := {
  Connections : Z;
  PacketsIn : Z;
  PacketsOut : Z;
  BytesIn : Z;
  BytesOut : Z;
  CPS : Z;
  BPSOut : Z;
  PPSIn : Z;
  PPSOut : Z;
  BPSIn : Z
}.

Definition DstStats := SvcStats.

Record Service : Type := {
  Address : IP;
  Protocol : IPProto;
  Port : Z;
  FWMark : Z;
  SchedName : string;
  Flags : Z;
  Timeout : Z;
  Netmask : Z;
  AddressFamily : Z;
  PEName : string;
  Stats : SvcStats
}.

Record Destination : Type := {
  dst_Address : IP;
  dst_Port : Z;
  Weight : Z;
  ConnectionFlags : Z;
  dst_AddressFamily : Z;
  UpperThreshold : Z;
  LowerThreshold : Z;
  ActiveConnections : Z;
  InactiveConnections : Z;
  PersistentConnections : Z;
  dst_Stats : DstStats
}.

Record LocalAddress : Type := {
  laddr_Address : IP;
  Conflicts : Z;
  laddr_Connections : Z
}.

Record Config : Type := {
  TimeoutTCP : Duration;
  TimeoutTCPFin : Duration;
  TimeoutUDP : Duration
}.

Record Version : Type := {
  Major : Z;
  Minor : Z;
  Patch : Z
}.

(** [Version] is held through a pointer. *)
Record Info : Type := {
  info_Version : option Version;
  ConnTableSize : Z
}.

Record Daemon : Type := {
  State : Z;
  SyncId : Z;
  McastIfn : string
}.

Definition Version_String (v : Version) : string :=
  fmt_d (Major v) +:+ "." +:+ fmt_d (Minor v) +:+ "." +:+ fmt_d (Patch v).

Section ServiceString.

(** [net.IP.String] belongs to Go's standard library: the verb [%v] calls
    it on [svc.Address]. *)
Variable net_IP_String : IP -> string.

Definition Service_String (svc : Service) : string :=
  if 0 <? FWMark svc then
    "FMW " +:+ fmt_d (FWMark svc) +:+ " (" +:+ SchedName svc +:+ ")"
  else if To4 (Address svc) is None then
    IPProto_String (Protocol svc) +:+ " [" +:+ net_IP_String (Address svc)
      +:+ "]:" +:+ fmt_d (Port svc) +:+ " (" +:+ SchedName svc +:+ ")"
  else
    IPProto_String (Protocol svc) +:+ " " +:+ net_IP_String (Address svc)
      +:+ ":" +:+ fmt_d (Port svc) +:+ " (" +:+ SchedName svc +:+ ")".

End ServiceString.

(** ** Computations: threaded state, and Go's panics *)

Inductive Outcome (A : Type) : Type :=
| Returned (a : A)
| Panicked (msg : string).

Arguments Returned {A} a.
Arguments Panicked {A} msg.

Definition M (S A : Type) : Type := S -> Outcome (A * S).

#[global] Instance M_ret {S : Type} : MRet (M S) :=
  fun A a s => Returned (a, s).

#[global] Instance M_bind {S : Type} : MBind (M S) :=
  fun A B f m s =>
    match m s with
    | Returned (a, s') => f a s'
    | Panicked msg => Panicked msg
    end.

#[global] Instance M_fmap {S : Type} : FMap (M S) :=
  fun A B f m => a ← m; mret (f a).

Definition panic {S A : Type} (msg : string) : M S A := fun _ => Panicked msg.
Definition gets {S A : Type} (f : S -> A) : M S A := fun s => Returned (f s, s).
Definition modify {S : Type} (f : S -> S) : M S unit := fun s => Returned (tt, f s).

(** [defer d] before [body]: [d] runs when [body] has returned. *)
Definition defer {S A : Type} (d : M S unit) (body : M S A) : M S A :=
  a ← body; d;; mret a.

(** A method called through a pointer: a nil pointer is dereferenced by
    the callee, which panics. *)
Definition nil_dereference : string :=
  "invalid memory address or nil pointer dereference".

Definition through {S P A : Type} (p : option P) (method : P -> M S A) : M S A :=
  match p with
  | Some x => method x
  | None => panic nil_dereference
  end.

(** ** The wire: commands, attribute trees, frames *)

(** The command codes of the IPVS generic-netlink family, by name.
    [ipvs.go] names those it passes to [doCmd], [doCmd2] and
    [doCmdWithoutAttr]; the others are the commands of the remaining
    helpers.  The numeric values belong to [constants.go], which is not
    among the sources; only the identity of a command matters here. *)
Inductive Cmd : Type :=
| ipvsCmdNewService | ipvsCmdSetService | ipvsCmdDelService | ipvsCmdGetService
| ipvsCmdNewDest | ipvsCmdSetDest | ipvsCmdDelDest | ipvsCmdGetDest
| ipvsCmdNewLaddr | ipvsCmdDelLaddr | ipvsCmdGetLaddr
| ipvsCmdNewDaemon | ipvsCmdDelDaemon | ipvsCmdGetDaemon
| ipvsCmdSetConfig | ipvsCmdGetConfig | ipvsCmdGetInfo
| ipvsCmdZero | ipvsCmdFlush.

(** Modelled from the spec: the attribute type tags of the IPVS schema
    ([constants.go], absent), by name: the containers of a command, then
    the fields of a service, a destination, a local address, the
    statistics, a daemon and the info reply.  [tagOther] is a tag this
    library does not know. *)
Inductive Tag : Type :=
| ipvsCmdAttrService | ipvsCmdAttrDest | ipvsCmdAttrLaddr | ipvsCmdAttrDaemon
| ipvsCmdAttrTimeoutTCP | ipvsCmdAttrTimeoutTCPFin | ipvsCmdAttrTimeoutUDP
| ipvsSvcAttrAddressFamily | ipvsSvcAttrProtocol | ipvsSvcAttrAddress
| ipvsSvcAttrPort | ipvsSvcAttrFWMark | ipvsSvcAttrSchedName | ipvsSvcAttrFlags
| ipvsSvcAttrTimeout | ipvsSvcAttrNetmask | ipvsSvcAttrStats | ipvsSvcAttrPEName
| ipvsDestAttrAddress | ipvsDestAttrPort | ipvsDestAttrAddressFamily
| ipvsDestAttrWeight | ipvsDestAttrForwardingMethod
| ipvsDestAttrUpperThreshold | ipvsDestAttrLowerThreshold
| ipvsDestAttrActiveConnections | ipvsDestAttrInactiveConnections
| ipvsDestAttrPersistentConnections | ipvsDestAttrStats
| ipvsLaddrAttrAddress | ipvsLaddrAttrConflicts | ipvsLaddrAttrConnections
| ipvsStatsAttrConnections | ipvsStatsAttrPacketsIn | ipvsStatsAttrPacketsOut
| ipvsStatsAttrBytesIn | ipvsStatsAttrBytesOut | ipvsStatsAttrCPS
| ipvsStatsAttrPPSIn | ipvsStatsAttrPPSOut | ipvsStatsAttrBPSIn | ipvsStatsAttrBPSOut
| ipvsDaemonAttrState | ipvsDaemonAttrMcastIfn | ipvsDaemonAttrSyncId
| ipvsInfoAttrVersion | ipvsInfoAttrConnTableSize
| tagOther (n : Z).

#[global] Instance Tag_eq_dec : EqDecision Tag.
Proof. solve_decision. Defined.

(** Payloads of leaf attributes. *)
Inductive Value : Type :=
| VU8 (z : Z)
| VU16 (z : Z)
| VU32 (z : Z)
| VU64 (z : Z)
| VBytes (b : list byte)
| VString (s : string)
| VFlags (flags mask : Z).

(** An attribute is a tagged leaf or a tagged container of attributes. *)
#[warnings="-register-all"]
Inductive Attr : Type :=
| Leaf (t : Tag) (v : Value)
| Nest (t : Tag) (children : list Attr).

(** Every tag of a tree, containers before their contents. *)
Fixpoint tags_of (a : Attr) : list Tag :=
  match a with
  | Leaf t _ => [t]
  | Nest t children => t :: flat_map tags_of children
  end.

(** An outbound frame: generic-netlink header fields and the top-level
    attributes. *)
Record Request : Type := {
  rq_cmd : Cmd;
  rq_seq : Z;
  rq_dump : bool;
  rq_attrs : list Attr
}.

(** An inbound frame: data, the "done" sentinel of a dump, or a netlink
    error with its code. *)
Inductive Reply : Type :=
| RData (seqno : Z) (attrs : list Attr)
| RDone (seqno : Z)
| RError (seqno : Z) (code : Z).

Definition reply_seq (r : Reply) : Z :=
  match r with
  | RData s _ => s
  | RDone s => s
  | RError s _ => s
  end.

(** ** The world outside: namespaces and netlink sockets

    The namespace resolver ([netns]) and the raw netlink socket ([nl],
    [unix]) are libraries this package calls.  A [World] holds what they
    keep (the open namespace handles, the sockets with what was sent and
    what waits to be received) and, as oracles, what they answer: which
    paths resolve, which calls fail, and what the kernel replies. *)

(** [netns.NsHandle] is a file descriptor; [netns.None()] is -1. *)
Definition NsHandle := Z.
Definition netns_None : NsHandle := -1.

Definition NETLINK_GENERIC : Z := 16.

Record Timeval : Type := {
  tv_sec : Z;
  tv_usec : Z
}.

(** [unix.NsecToTimeval]: rounds up to the microsecond. *)
Definition NsecToTimeval (nsec : Z) : Timeval :=
  let nsec := nsec + 999 in
  let usec := Z.quot (Z.rem nsec 1000000000) 1000 in
  let sec := Z.quot nsec 1000000000 in
  if usec <? 0 then {| tv_sec := sec - 1; tv_usec := usec + 1000000 |}
  else {| tv_sec := sec; tv_usec := usec |}.

Record Socket : Type := {
  sk_ns : NsHandle;
  sk_closed : bool;
  sk_sndtimeo : option Timeval;
  sk_rcvtimeo : option Timeval;
  sk_sent : list Request;
  sk_inbox : list Reply
}.

(** A [*nl.NetlinkSocket] is an index into the socket table. *)
Abbreviation SockRef := nat.

Record World : Type := {
  sockets : list Socket;
  open_ns : list NsHandle;
  ipvs_ready : bool;
  netns_lookup : string -> NsHandle * option error;
  socket_fault : NsHandle -> option error;
  sndtimeo_fault : SockRef -> Timeval -> option error;
  rcvtimeo_fault : SockRef -> Timeval -> option error;
  send_fault : Request -> option error;
  kernel : list Request -> list Reply
}.

Definition with_sockets (f : list Socket -> list Socket) (w : World) : World :=
  {| sockets := f (sockets w); open_ns := open_ns w; ipvs_ready := ipvs_ready w;
     netns_lookup := netns_lookup w; socket_fault := socket_fault w;
     sndtimeo_fault := sndtimeo_fault w; rcvtimeo_fault := rcvtimeo_fault w;
     send_fault := send_fault w; kernel := kernel w |}.

Definition with_open_ns (f : list NsHandle -> list NsHandle) (w : World) : World :=
  {| sockets := sockets w; open_ns := f (open_ns w); ipvs_ready := ipvs_ready w;
     netns_lookup := netns_lookup w; socket_fault := socket_fault w;
     sndtimeo_fault := sndtimeo_fault w; rcvtimeo_fault := rcvtimeo_fault w;
     send_fault := send_fault w; kernel := kernel w |}.

Definition with_ipvs_ready (b : bool) (w : World) : World :=
  {| sockets := sockets w; open_ns := open_ns w; ipvs_ready := b;
     netns_lookup := netns_lookup w; socket_fault := socket_fault w;
     sndtimeo_fault := sndtimeo_fault w; rcvtimeo_fault := rcvtimeo_fault w;
     send_fault := send_fault w; kernel := kernel w |}.

Definition sk_close (sk : Socket) : Socket :=
  {| sk_ns := sk_ns sk; sk_closed := true; sk_sndtimeo := sk_sndtimeo sk;
     sk_rcvtimeo := sk_rcvtimeo sk; sk_sent := sk_sent sk; sk_inbox := sk_inbox sk |}.

Definition sk_set_sndtimeo (tv : Timeval) (sk : Socket) : Socket :=
  {| sk_ns := sk_ns sk; sk_closed := sk_closed sk; sk_sndtimeo := Some tv;
     sk_rcvtimeo := sk_rcvtimeo sk; sk_sent := sk_sent sk; sk_inbox := sk_inbox sk |}.

Definition sk_set_rcvtimeo (tv : Timeval) (sk : Socket) : Socket :=
  {| sk_ns := sk_ns sk; sk_closed := sk_closed sk; sk_sndtimeo := sk_sndtimeo sk;
     sk_rcvtimeo := Some tv; sk_sent := sk_sent sk; sk_inbox := sk_inbox sk |}.

Definition sk_push (rq : Request) (replies : list Reply) (sk : Socket) : Socket :=
  {| sk_ns := sk_ns sk; sk_closed := sk_closed sk; sk_sndtimeo := sk_sndtimeo sk;
     sk_rcvtimeo := sk_rcvtimeo sk; sk_sent := sk_sent sk ++ [rq];
     sk_inbox := sk_inbox sk ++ replies |}.

Definition sk_set_inbox (inbox : list Reply) (sk : Socket) : Socket :=
  {| sk_ns := sk_ns sk; sk_closed := sk_closed sk; sk_sndtimeo := sk_sndtimeo sk;
     sk_rcvtimeo := sk_rcvtimeo sk; sk_sent := sk_sent sk; sk_inbox := inbox |}.

Definition fresh_socket (ns : NsHandle) : Socket :=
  {| sk_ns := ns; sk_closed := false; sk_sndtimeo := None; sk_rcvtimeo := None;
     sk_sent := []; sk_inbox := [] |}.

Definition EBADF : error := Errno 9.
Definition EAGAIN : error := Errno 11.

(** [netns.GetFromPath]: a handle on the namespace at [path], or the
    resolver's error. *)
Definition GetFromPath (path : string) : M World (NsHandle * option error) :=
  fun w =>
    match netns_lookup w path with
    | (n, None) => Returned ((n, None), with_open_ns (cons n) w)
    | (n, Some e) => Returned ((n, Some e), w)
    end.

(** [NsHandle.Close] *)
Definition NsHandle_Close (n : NsHandle) : M World unit :=
  modify (with_open_ns (filter (fun m => m <> n))).

(** [nl.GetNetlinkSocketAt newNs curNs protocol]: a socket opened in the
    namespace [newNs], or the transport's error. *)
Definition GetNetlinkSocketAt (newNs curNs : NsHandle) (protocol : Z)
  : M World (option SockRef * option error) :=
  fun w =>
    match socket_fault w newNs with
    | Some e => Returned ((None, Some e), w)
    | None =>
        Returned ((Some (length (sockets w)), None),
                  with_sockets (fun l => l ++ [fresh_socket newNs]) w)
    end.

Definition SetSendTimeout (s : SockRef) (tv : Timeval) : M World (option error) :=
  fun w =>
    match sndtimeo_fault w s tv with
    | Some e => Returned (Some e, w)
    | None => Returned (None, with_sockets (alter (sk_set_sndtimeo tv) s) w)
    end.

Definition SetReceiveTimeout (s : SockRef) (tv : Timeval) : M World (option error) :=
  fun w =>
    match rcvtimeo_fault w s tv with
    | Some e => Returned (Some e, w)
    | None => Returned (None, with_sockets (alter (sk_set_rcvtimeo tv) s) w)
    end.

(** [NetlinkSocket.Close] *)
Definition NetlinkSocket_Close (s : SockRef) : M World unit :=
  modify (with_sockets (alter sk_close s)).

(** Whether [s] is a socket that can still carry frames. *)
Definition usable (w : World) (s : SockRef) : bool :=
  match sockets w !! s with
  | Some sk => negb (sk_closed sk)
  | None => false
  end.

(** ** Handle *)

Record Handle : Type := {
  seq : Z;
  sock : option SockRef
}.

(** What a method of [*Handle] runs on: the handle and the world. *)
Definition Env : Type := Handle * World.

Definition in_world {A : Type} (m : M World A) : M Env A :=
  fun '(i, w) =>
    match m w with
    | Returned (a, w') => Returned (a, (i, w'))
    | Panicked msg => Panicked msg
    end.

(** The result of [doGetInfoCmd]; the type is declared in [netlink.go],
    and these are the two fields [GetInfo] reads. *)
Record ipvsInfo : Type := {
  version : Z;
  connTableSize : Z
}.

(** One reply message, as the helpers hand it back. *)
Definition Msg : Type := list Attr.

(** The functions of [netlink.go] that [ipvs.go] calls. *)
Class Netlink : Type := {
  setup : World -> World;
  doCmd : Service -> option Destination -> Cmd -> M Env (option error);
  doCmd2 : Service -> LocalAddress -> Cmd -> M Env (option error);
  doCmdWithoutAttr : Cmd -> M Env (list Msg * option error);
  doGetServicesCmd : option Service -> M Env (list Service * option error);
  doGetDestinationsCmd :
    Service -> option Destination -> M Env (list Destination * option error);
  doGetLocalAddressesCmd :
    Service -> option LocalAddress -> M Env (list LocalAddress * option error);
  doGetConfigCmd : M Env (option Config * option error);
  doSetConfigCmd : Config -> M Env (option error);
  doGetInfoCmd : M Env (option ipvsInfo * option error);
  doGetDaemonCmd : option Daemon -> M Env (list Daemon * option error);
  doNewDaemonCmd : Daemon -> M Env (option error);
  doDelDaemonCmd : Daemon -> M Env (option error)
}.

(** ** ipvs.go: the constructor and the methods of Handle *)

Section PublicAPI.

Context `{Netlink}.

(** [New(path)]: [defer n.Close()] is registered once the namespace is
    known, so it runs on every later return. *)
Definition New (path : string) : M World (option Handle * option error) :=
  modify setup;;
  '(n, err) ← (if bool_decide (path <> "") then GetFromPath path
               else mret (netns_None, None));
  if err is Some e then mret (None, Some e) else
  defer (NsHandle_Close n)
    ('(sock, err) ← GetNetlinkSocketAt n netns_None NETLINK_GENERIC;
     if err is Some e then mret (None, Some e) else
     let tv := NsecToTimeval (Nanoseconds netlinkSendSocketTimeout) in
     err ← through sock (fun s => SetSendTimeout s tv);
     if err is Some e then mret (None, Some e) else
     let tv := NsecToTimeval (Nanoseconds netlinkRecvSocketsTimeout) in
     err ← through sock (fun s => SetReceiveTimeout s tv);
     if err is Some e then mret (None, Some e) else
     mret (Some {| seq := 0; sock := sock |}, None)).

Definition Close : M Env unit :=
  i ← gets fst;
  if sock i is Some _ then
    through (sock i) (fun s => in_world (NetlinkSocket_Close s))
  else mret tt.

Definition NewService (s : Service) : M Env (option error) :=
  doCmd s None ipvsCmdNewService.

Definition IsServicePresent (s : Service) : M Env bool :=
  err ← doCmd s None ipvsCmdGetService;
  mret (if err is None then true else false).

Definition UpdateService (s : Service) : M Env (option error) :=
  doCmd s None ipvsCmdSetService.

Definition DelService (s : Service) : M Env (option error) :=
  doCmd s None ipvsCmdDelService.

Definition Flush : M Env (option error) :=
  '(_, err) ← doCmdWithoutAttr ipvsCmdFlush;
  mret err.

Definition ZeroService (s : Service) : M Env (option error) :=
  doCmd s None ipvsCmdZero.

Definition Zero : M Env (option error) :=
  '(_, err) ← doCmdWithoutAttr ipvsCmdZero;
  mret err.

Definition NewDestination (s : Service) (d : Destination) : M Env (option error) :=
  doCmd s (Some d) ipvsCmdNewDest.

Definition UpdateDestination (s : Service) (d : Destination) : M Env (option error) :=
  doCmd s (Some d) ipvsCmdSetDest.

Definition DelDestination (s : Service) (d : Destination) : M Env (option error) :=
  doCmd s (Some d) ipvsCmdDelDest.

Definition NewLocalAddress (s : Service) (d : LocalAddress) : M Env (option error) :=
  doCmd2 s d ipvsCmdNewLaddr.

Definition DelLocalAddress (s : Service) (d : LocalAddress) : M Env (option error) :=
  doCmd2 s d ipvsCmdDelLaddr.

Definition GetServices : M Env (list Service * option error) :=
  doGetServicesCmd None.

Definition GetDestinations (s : Service) : M Env (list Destination * option error) :=
  doGetDestinationsCmd s None.

Definition GetLocalAddresses (s : Service)
  : M Env (list LocalAddress * option error) :=
  doGetLocalAddressesCmd s None.

Definition GetService (s : Service) : M Env (option Service * option error) :=
  '(res, err) ← doGetServicesCmd (Some s);
  if err is Some e then mret (None, Some e) else
  if negb (Nat.eqb (length res) 1) then
    mret (None, Some (errorString
      ("Expected only one service obtained=" +:+ fmt_d (Z.of_nat (length res)))))
  else mret (res !! 0%nat, None).

Definition GetConfig : M Env (option Config * option error) :=
  doGetConfigCmd.

Definition SetConfig (c : Config) : M Env (option error) :=
  doSetConfigCmd c.

Definition GetInfo : M Env (option Info * option error) :=
  '(res, err) ← doGetInfoCmd;
  if err is Some e then mret (None, Some e) else
  through res (fun res =>
    let ver := to_uint (version res) in
    mret (Some {| info_Version :=
                    Some {| Major := Z.land (Z.shiftr ver 16) 0xff;
                            Minor := Z.land (Z.shiftr ver 8) 0xff;
                            Patch := Z.land ver 0xff |};
                  ConnTableSize := connTableSize res |}, None)).

Definition GetDaemons : M Env (list Daemon * option error) :=
  doGetDaemonCmd None.

Definition NewDaemon (d : Daemon) : M Env (option error) :=
  doNewDaemonCmd d.

Definition DelDaemon (d : Daemon) : M Env (option error) :=
  doDelDaemonCmd d.

(** One call of a command method, with its arguments. *)
Inductive Op : Type :=
| OpNewService (s : Service)
| OpIsServicePresent (s : Service)
| OpUpdateService (s : Service)
| OpDelService (s : Service)
| OpFlush
| OpZeroService (s : Service)
| OpZero
| OpNewDestination (s : Service) (d : Destination)
| OpUpdateDestination (s : Service) (d : Destination)
| OpDelDestination (s : Service) (d : Destination)
| OpNewLocalAddress (s : Service) (d : LocalAddress)
| OpDelLocalAddress (s : Service) (d : LocalAddress)
| OpGetServices
| OpGetDestinations (s : Service)
| OpGetLocalAddresses (s : Service)
| OpGetService (s : Service)
| OpGetConfig
| OpSetConfig (c : Config)
| OpGetInfo
| OpGetDaemons
| OpNewDaemon (d : Daemon)
| OpDelDaemon (d : Daemon).

(** What a call hands back to its caller. *)
Inductive Answer : Type :=
| AErr (err : option error)
| ABool (b : bool)
| AServices (l : list Service) (err : option error)
| AService (s : option Service) (err : option error)
| ADestinations (l : list Destination) (err : option error)
| ALocalAddresses (l : list LocalAddress) (err : option error)
| AConfig (c : option Config) (err : option error)
| AInfo (i : option Info) (err : option error)
| ADaemons (l : list Daemon) (err : option error).

Definition call (op : Op) : M Env Answer :=
  match op with
  | OpNewService s => AErr <$> NewService s
  | OpIsServicePresent s => ABool <$> IsServicePresent s
  | OpUpdateService s => AErr <$> UpdateService s
  | OpDelService s => AErr <$> DelService s
  | OpFlush => AErr <$> Flush
  | OpZeroService s => AErr <$> ZeroService s
  | OpZero => AErr <$> Zero
  | OpNewDestination s d => AErr <$> NewDestination s d
  | OpUpdateDestination s d => AErr <$> UpdateDestination s d
  | OpDelDestination s d => AErr <$> DelDestination s d
  | OpNewLocalAddress s d => AErr <$> NewLocalAddress s d
  | OpDelLocalAddress s d => AErr <$> DelLocalAddress s d
  | OpGetServices => uncurry AServices <$> GetServices
  | OpGetDestinations s => uncurry ADestinations <$> GetDestinations s
  | OpGetLocalAddresses s => uncurry ALocalAddresses <$> GetLocalAddresses s
  | OpGetService s => uncurry AService <$> GetService s
  | OpGetConfig => uncurry AConfig <$> GetConfig
  | OpSetConfig c => AErr <$> SetConfig c
  | OpGetInfo => uncurry AInfo <$> GetInfo
  | OpGetDaemons => uncurry ADaemons <$> GetDaemons
  | OpNewDaemon d => AErr <$> NewDaemon d
  | OpDelDaemon d => AErr <$> DelDaemon d
  end.

End PublicAPI.

(** [h.Close()] where [h] is the [*Handle] a caller holds, which is nil
    when [New] returned an error: [Close] reads [i.sock] through the
    receiver, so a nil receiver is dereferenced before the check of the
    socket. *)
Definition Close_on (p : option Handle) : M World unit :=
  through p (fun i w =>
    match Close (i, w) with
    | Returned (_, (_, w')) => Returned (tt, w')
    | Panicked msg => Panicked msg
    end).

(** ** netlink.go, modelled

    [netlink.go] and [constants.go] are not among the sources: what follows
    stands for them.  Frames are attribute trees here, so the byte layout
    (lengths, padding, byte order) is below this model. *)

Definition AF_INET : Z := 2.
Definition AF_INET6 : Z := 10.

(** Modelled from the spec: the address-family inference of the entity
    translator (netlink.go, absent).  "If not explicitly set, derive from
    whether the address parses as 4 or 16 bytes; reject mixed-family"
    entities. *)
Definition infer_family (addr : IP) : Z :=
  if To4 addr is Some _ then AF_INET else AF_INET6.

Definition family (explicit : Z) (addr : IP) : Z :=
  if explicit =? 0 then infer_family addr else explicit.

Definition mixed_family (explicit : Z) (addr : IP) : bool :=
  negb (explicit =? 0) && negb (explicit =? infer_family addr).

Definition wire_address (fam : Z) (addr : IP) : list byte :=
  if fam =? AF_INET then default addr (To4 addr) else addr.

Definition errMixedFamily : error := errorString "mixed address families".

(** Modelled from the spec: the identity attributes of a Service
    ([fillService] of netlink.go, absent).  "Identity attributes first
    (either the firewall-mark integer, or address-family + protocol +
    address + port)". *)
Definition identity_attrs (s : Service) : list Attr :=
  if 0 <? FWMark s then [Leaf ipvsSvcAttrFWMark (VU32 (FWMark s))]
  else
    let fam := family (AddressFamily s) (Address s) in
    [Leaf ipvsSvcAttrAddressFamily (VU16 fam);
     Leaf ipvsSvcAttrProtocol (VU16 (Protocol s));
     Leaf ipvsSvcAttrAddress (VBytes (wire_address fam (Address s)));
     Leaf ipvsSvcAttrPort (VU16 (Port s))].

(** Modelled from the spec: the option attributes of a Service
    ([fillService] of netlink.go, absent).  "Then option attributes
    (scheduler name string, flags+mask pair, timeout, netmask,
    persistence-engine name)"; the persistence engine is optional. *)
Definition option_attrs (s : Service) : list Attr :=
  [Leaf ipvsSvcAttrSchedName (VString (SchedName s));
   Leaf ipvsSvcAttrFlags (VFlags (Flags s) 0xffffffff);
   Leaf ipvsSvcAttrTimeout (VU32 (Timeout s));
   Leaf ipvsSvcAttrNetmask (VU32 (Netmask s))]
  ++ (if bool_decide (PEName s <> "") then [Leaf ipvsSvcAttrPEName (VString (PEName s))]
      else []).

(** Modelled from the spec: [fillService] of netlink.go (absent), the
    Service container of a request. *)
Definition fillService (s : Service) : Attr :=
  Nest ipvsCmdAttrService (identity_attrs s ++ option_attrs s).

(** Modelled from the spec: the validation of a Service before it is
    encoded (netlink.go, absent); the address is looked at only when it
    identifies the service. *)
Definition checkService (s : Service) : option error :=
  if 0 <? FWMark s then None
  else if mixed_family (AddressFamily s) (Address s) then Some errMixedFamily
  else None.

(** Modelled from the spec: [fillDestination] of netlink.go (absent).
    "Address + port + address-family identity, weight, connection flags,
    upper/lower thresholds". *)
Definition fillDestination (d : Destination) : Attr :=
  let fam := family (dst_AddressFamily d) (dst_Address d) in
  Nest ipvsCmdAttrDest
    [Leaf ipvsDestAttrAddress (VBytes (wire_address fam (dst_Address d)));
     Leaf ipvsDestAttrPort (VU16 (dst_Port d));
     Leaf ipvsDestAttrAddressFamily (VU16 fam);
     Leaf ipvsDestAttrWeight (VU32 (Weight d));
     Leaf ipvsDestAttrForwardingMethod (VU32 (ConnectionFlags d));
     Leaf ipvsDestAttrUpperThreshold (VU32 (UpperThreshold d));
     Leaf ipvsDestAttrLowerThreshold (VU32 (LowerThreshold d))].

Definition checkDestination (d : option Destination) : option error :=
  match d with
  | Some d =>
      if mixed_family (dst_AddressFamily d) (dst_Address d) then Some errMixedFamily
      else None
  | None => None
  end.

(** Modelled from the spec: the LocalAddress container (netlink.go,
    absent); a local address is identified by its address. *)
Definition fillLocalAddress (l : LocalAddress) : Attr :=
  Nest ipvsCmdAttrLaddr
    [Leaf ipvsLaddrAttrAddress
       (VBytes (wire_address (infer_family (laddr_Address l)) (laddr_Address l)))].

(** Modelled from the spec: the Config attributes (netlink.go, absent).
    "Three duration fields encoded as seconds (integer)"; a zero field
    means "leave unchanged" and is omitted. *)
Definition timeout_attr (t : Tag) (d : Duration) : list Attr :=
  if d =? 0 then [] else [Leaf t (VU32 (Z.quot d Second))].

Definition fillConfig (c : Config) : list Attr :=
  timeout_attr ipvsCmdAttrTimeoutTCP (TimeoutTCP c)
  ++ timeout_attr ipvsCmdAttrTimeoutTCPFin (TimeoutTCPFin c)
  ++ timeout_attr ipvsCmdAttrTimeoutUDP (TimeoutUDP c).

(** Modelled from the spec: the Daemon container (netlink.go, absent):
    state, sync group id, multicast interface name. *)
Definition fillDaemon (d : Daemon) : Attr :=
  Nest ipvsCmdAttrDaemon
    [Leaf ipvsDaemonAttrState (VU32 (State d));
     Leaf ipvsDaemonAttrSyncId (VU32 (SyncId d));
     Leaf ipvsDaemonAttrMcastIfn (VString (McastIfn d))].

(** *** Decoding

    Modelled from the spec: the decode direction of the entity translator
    (netlink.go, absent).  A field is looked up by its tag; an attribute
    with an unknown tag is skipped, and a field the kernel left out is
    zero. *)

Fixpoint find_leaf (t : Tag) (attrs : list Attr) : option Value :=
  match attrs with
  | [] => None
  | Leaf t' v :: rest => if bool_decide (t = t') then Some v else find_leaf t rest
  | Nest _ _ :: rest => find_leaf t rest
  end.

Fixpoint find_nest (t : Tag) (attrs : list Attr) : list Attr :=
  match attrs with
  | [] => []
  | Nest t' children :: rest =>
      if bool_decide (t = t') then children else find_nest t rest
  | Leaf _ _ :: rest => find_nest t rest
  end.

Definition num (v : option Value) : Z :=
  match v with
  | Some (VU8 z) | Some (VU16 z) | Some (VU32 z) | Some (VU64 z) => z
  | Some (VFlags flags _) => flags
  | _ => 0
  end.

Definition raw (v : option Value) : list byte :=
  match v with
  | Some (VBytes b) => b
  | _ => []
  end.

Definition str (v : option Value) : string :=
  match v with
  | Some (VString s) => s
  | _ => ""
  end.

Definition assembleStats (attrs : list Attr) : SvcStats :=
  {| Connections := num (find_leaf ipvsStatsAttrConnections attrs);
     PacketsIn := num (find_leaf ipvsStatsAttrPacketsIn attrs);
     PacketsOut := num (find_leaf ipvsStatsAttrPacketsOut attrs);
     BytesIn := num (find_leaf ipvsStatsAttrBytesIn attrs);
     BytesOut := num (find_leaf ipvsStatsAttrBytesOut attrs);
     CPS := num (find_leaf ipvsStatsAttrCPS attrs);
     BPSOut := num (find_leaf ipvsStatsAttrBPSOut attrs);
     PPSIn := num (find_leaf ipvsStatsAttrPPSIn attrs);
     PPSOut := num (find_leaf ipvsStatsAttrPPSOut attrs);
     BPSIn := num (find_leaf ipvsStatsAttrBPSIn attrs) |}.

Definition assembleService (attrs : list Attr) : Service :=
  {| Address := raw (find_leaf ipvsSvcAttrAddress attrs);
     Protocol := num (find_leaf ipvsSvcAttrProtocol attrs);
     Port := num (find_leaf ipvsSvcAttrPort attrs);
     FWMark := num (find_leaf ipvsSvcAttrFWMark attrs);
     SchedName := str (find_leaf ipvsSvcAttrSchedName attrs);
     Flags := num (find_leaf ipvsSvcAttrFlags attrs);
     Timeout := num (find_leaf ipvsSvcAttrTimeout attrs);
     Netmask := num (find_leaf ipvsSvcAttrNetmask attrs);
     AddressFamily := num (find_leaf ipvsSvcAttrAddressFamily attrs);
     PEName := str (find_leaf ipvsSvcAttrPEName attrs);
     Stats := assembleStats (find_nest ipvsSvcAttrStats attrs) |}.

Definition assembleDestination (attrs : list Attr) : Destination :=
  {| dst_Address := raw (find_leaf ipvsDestAttrAddress attrs);
     dst_Port := num (find_leaf ipvsDestAttrPort attrs);
     Weight := num (find_leaf ipvsDestAttrWeight attrs);
     ConnectionFlags := num (find_leaf ipvsDestAttrForwardingMethod attrs);
     dst_AddressFamily := num (find_leaf ipvsDestAttrAddressFamily attrs);
     UpperThreshold := num (find_leaf ipvsDestAttrUpperThreshold attrs);
     LowerThreshold := num (find_leaf ipvsDestAttrLowerThreshold attrs);
     ActiveConnections := num (find_leaf ipvsDestAttrActiveConnections attrs);
     InactiveConnections := num (find_leaf ipvsDestAttrInactiveConnections attrs);
     PersistentConnections := num (find_leaf ipvsDestAttrPersistentConnections attrs);
     dst_Stats := assembleStats (find_nest ipvsDestAttrStats attrs) |}.

Definition assembleLocalAddress (attrs : list Attr) : LocalAddress :=
  {| laddr_Address := raw (find_leaf ipvsLaddrAttrAddress attrs);
     Conflicts := num (find_leaf ipvsLaddrAttrConflicts attrs);
     laddr_Connections := num (find_leaf ipvsLaddrAttrConnections attrs) |}.

Definition assembleDaemon (attrs : list Attr) : Daemon :=
  {| State := num (find_leaf ipvsDaemonAttrState attrs);
     SyncId := num (find_leaf ipvsDaemonAttrSyncId attrs);
     McastIfn := str (find_leaf ipvsDaemonAttrMcastIfn attrs) |}.

Definition parseService (m : Msg) : Service :=
  assembleService (find_nest ipvsCmdAttrService m).

Definition parseDestination (m : Msg) : Destination :=
  assembleDestination (find_nest ipvsCmdAttrDest m).

Definition parseLocalAddress (m : Msg) : LocalAddress :=
  assembleLocalAddress (find_nest ipvsCmdAttrLaddr m).

Definition parseDaemon (m : Msg) : Daemon :=
  assembleDaemon (find_nest ipvsCmdAttrDaemon m).

Definition parseConfig (m : Msg) : Config :=
  {| TimeoutTCP := num (find_leaf ipvsCmdAttrTimeoutTCP m) * Second;
     TimeoutTCPFin := num (find_leaf ipvsCmdAttrTimeoutTCPFin m) * Second;
     TimeoutUDP := num (find_leaf ipvsCmdAttrTimeoutUDP m) * Second |}.

Definition parseInfo (m : Msg) : ipvsInfo :=
  {| version := num (find_leaf ipvsInfoAttrVersion m);
     connTableSize := num (find_leaf ipvsInfoAttrConnTableSize m) |}.

Module Model.

(** Modelled from the spec: [send] of the netlink transport (library [nl],
    not part of this repository's sources).  A socket that is closed, or
    that the table does not know, carries nothing: the call fails at once.
    Otherwise the frame is on the wire and the kernel queues its replies. *)
Definition Send (s : SockRef) (rq : Request) : M World (option error) :=
  fun w =>
    if usable w s then
      match send_fault w rq with
      | Some e => Returned (Some e, w)
      | None =>
          Returned (None,
            with_sockets
              (alter (fun sk => sk_push rq (kernel w (sk_sent sk ++ [rq])) sk) s) w)
      end
    else Returned (Some EBADF, w).

(** Modelled from the spec: [receive] of the netlink transport.  [reader]
    consumes queued frames, one receive per frame, and leaves the rest. *)
Definition Receive {A : Type} (s : SockRef)
    (reader : list Reply -> A * list Reply) (failed : error -> A) : M World A :=
  fun w =>
    match sockets w !! s with
    | Some sk =>
        if sk_closed sk then Returned (failed EBADF, w)
        else
          let '(a, rest) := reader (sk_inbox sk) in
          Returned (a, with_sockets (alter (sk_set_inbox rest) s) w)
    | None => Returned (failed EBADF, w)
    end.

(** Modelled from the spec: the reply of a single-reply command (message
    framer, netlink.go, absent).  Frames of another sequence number are
    stale and dropped; an error frame is the failure; anything else is
    success; an empty queue is the receive timeout. *)
Fixpoint await (seqno : Z) (inbox : list Reply) : (list Msg * option error) * list Reply :=
  match inbox with
  | [] => (([], Some EAGAIN), [])
  | r :: rest =>
      if reply_seq r =? seqno then
        match r with
        | RData _ attrs => (([attrs], None), rest)
        | RDone _ => (([], None), rest)
        | RError _ code => (([], Some (Errno code)), rest)
        end
      else await seqno rest
  end.

(** Modelled from the spec: the replies of a dump (message framer,
    netlink.go, absent).  Data frames are kept in delivery order until the
    "done" sentinel; a timeout or an error frame discards what was read. *)
Fixpoint collect (seqno : Z) (acc : list Msg) (inbox : list Reply)
  : (list Msg * option error) * list Reply :=
  match inbox with
  | [] => (([], Some EAGAIN), [])
  | r :: rest =>
      if reply_seq r =? seqno then
        match r with
        | RData _ attrs => collect seqno (acc ++ [attrs]) rest
        | RDone _ => ((acc, None), rest)
        | RError _ code => (([], Some (Errno code)), rest)
        end
      else collect seqno acc rest
  end.

(** Modelled from the spec: a new outbound frame (netlink.go, absent).
    "Every outbound frame carries a new sequence number", from the
    handle's counter, which wraps. *)
Definition newIPVSRequest (cmd : Cmd) (dump : bool) (attrs : list Attr) : M Env Request :=
  fun '(i, w) =>
    let n := uint32_succ (seq i) in
    Returned ({| rq_cmd := cmd; rq_seq := n; rq_dump := dump; rq_attrs := attrs |},
              ({| seq := n; sock := sock i |}, w)).

(** Modelled from the spec: one exchange (command dispatcher, netlink.go,
    absent): send one frame, then read the reply or the dump. *)
Definition execute (rq : Request) : M Env (list Msg * option error) :=
  i ← gets fst;
  err ← through (sock i) (fun s => in_world (Send s rq));
  if err is Some e then mret ([], Some e) else
  through (sock i) (fun s =>
    in_world (Receive s
      (if rq_dump rq then collect (rq_seq rq) [] else await (rq_seq rq))
      (fun e => ([], Some e)))).

Definition exchange (cmd : Cmd) (dump : bool) (attrs : list Attr)
  : M Env (list Msg * option error) :=
  rq ← newIPVSRequest cmd dump attrs;
  execute rq.

Definition opt_attr {A : Type} (fill : A -> Attr) (x : option A) : list Attr :=
  match x with
  | Some a => [fill a]
  | None => []
  end.

(** Modelled from the spec: [setup] of netlink.go (absent), "explicit
    idempotent initialization invoked by the Handle constructor". *)
Definition setup (w : World) : World := with_ipvs_ready true w.

(** Modelled from the spec: [doCmd] of netlink.go (absent), a single-reply
    command on a service and, when given, one of its destinations. *)
Definition doCmd (s : Service) (d : option Destination) (cmd : Cmd)
  : M Env (option error) :=
  if checkService s is Some e then mret (Some e) else
  if checkDestination d is Some e then mret (Some e) else
  '(_, err) ← exchange cmd false (fillService s :: opt_attr fillDestination d);
  mret err.

(** Modelled from the spec: [doCmd2] of netlink.go (absent), a single-reply
    command on a service and one of its local addresses. *)
Definition doCmd2 (s : Service) (l : LocalAddress) (cmd : Cmd) : M Env (option error) :=
  if checkService s is Some e then mret (Some e) else
  '(_, err) ← exchange cmd false [fillService s; fillLocalAddress l];
  mret err.

(** Modelled from the spec: [doCmdWithoutAttr] of netlink.go (absent). *)
Definition doCmdWithoutAttr (cmd : Cmd) : M Env (list Msg * option error) :=
  exchange cmd false [].

(** Modelled from the spec: [doGetServicesCmd] of netlink.go (absent), the
    dump of all services, or of the one [svc] names. *)
Definition doGetServicesCmd (svc : option Service) : M Env (list Service * option error) :=
  if svc ≫= checkService is Some e then mret ([], Some e) else
  '(msgs, err) ← exchange ipvsCmdGetService true (opt_attr fillService svc);
  mret (parseService <$> msgs, err).

(** Modelled from the spec: [doGetDestinationsCmd] of netlink.go (absent). *)
Definition doGetDestinationsCmd (s : Service) (d : option Destination)
  : M Env (list Destination * option error) :=
  if checkService s is Some e then mret ([], Some e) else
  if checkDestination d is Some e then mret ([], Some e) else
  '(msgs, err) ← exchange ipvsCmdGetDest true (fillService s :: opt_attr fillDestination d);
  mret (parseDestination <$> msgs, err).

(** Modelled from the spec: [doGetLocalAddressesCmd] of netlink.go (absent). *)
Definition doGetLocalAddressesCmd (s : Service) (l : option LocalAddress)
  : M Env (list LocalAddress * option error) :=
  if checkService s is Some e then mret ([], Some e) else
  '(msgs, err) ← exchange ipvsCmdGetLaddr true (fillService s :: opt_attr fillLocalAddress l);
  mret (parseLocalAddress <$> msgs, err).

(** Modelled from the spec: [doGetConfigCmd] of netlink.go (absent). *)
Definition doGetConfigCmd : M Env (option Config * option error) :=
  '(msgs, err) ← exchange ipvsCmdGetConfig false [];
  if err is Some e then mret (None, Some e) else
  mret (Some (parseConfig (concat msgs)), None).

(** Modelled from the spec: [doSetConfigCmd] of netlink.go (absent). *)
Definition doSetConfigCmd (c : Config) : M Env (option error) :=
  '(_, err) ← exchange ipvsCmdSetConfig false (fillConfig c);
  mret err.

(** Modelled from the spec: [doGetInfoCmd] of netlink.go (absent). *)
Definition doGetInfoCmd : M Env (option ipvsInfo * option error) :=
  '(msgs, err) ← exchange ipvsCmdGetInfo false [];
  if err is Some e then mret (None, Some e) else
  mret (Some (parseInfo (concat msgs)), None).

(** Modelled from the spec: [doGetDaemonCmd] of netlink.go (absent). *)
Definition doGetDaemonCmd (d : option Daemon) : M Env (list Daemon * option error) :=
  '(msgs, err) ← exchange ipvsCmdGetDaemon true (opt_attr fillDaemon d);
  mret (parseDaemon <$> msgs, err).

(** Modelled from the spec: [doNewDaemonCmd] of netlink.go (absent). *)
Definition doNewDaemonCmd (d : Daemon) : M Env (option error) :=
  '(_, err) ← exchange ipvsCmdNewDaemon false [fillDaemon d];
  mret err.

(** Modelled from the spec: [doDelDaemonCmd] of netlink.go (absent). *)
Definition doDelDaemonCmd (d : Daemon) : M Env (option error) :=
  '(_, err) ← exchange ipvsCmdDelDaemon false [fillDaemon d];
  mret err.

(** The modelled helpers, as the interface the methods are written against. *)
Definition netlink : Netlink :=
  Build_Netlink setup doCmd doCmd2 doCmdWithoutAttr doGetServicesCmd
    doGetDestinationsCmd doGetLocalAddressesCmd doGetConfigCmd doSetConfigCmd
    doGetInfoCmd doGetDaemonCmd doNewDaemonCmd doDelDaemonCmd.

End Model.

(** ** Observations used in the statements *)

(** The frames sent so far on socket [s]. *)
Definition sent_on (w : World) (s : SockRef) : list Request :=
  match sockets w !! s with
  | Some sk => sk_sent sk
  | None => []
  end.

(** The tags that identify a service on the wire. *)
Definition is_identity_tag (t : Tag) : bool :=
  match t with
  | ipvsSvcAttrFWMark | ipvsSvcAttrAddressFamily | ipvsSvcAttrProtocol
  | ipvsSvcAttrAddress | ipvsSvcAttrPort => true
  | _ => false
  end.

Definition is_address_tag (t : Tag) : bool :=
  match t with
  | ipvsSvcAttrAddressFamily | ipvsSvcAttrProtocol
  | ipvsSvcAttrAddress | ipvsSvcAttrPort => true
  | _ => false
  end.

Definition identity_tags (attrs : list Attr) : list Tag :=
  List.filter is_identity_tag (flat_map tags_of attrs).

Definition by_fwmark (a : Attr) : bool :=
  existsb (fun t => bool_decide (t = ipvsSvcAttrFWMark)) (tags_of a).

Definition by_address (a : Attr) : bool :=
  existsb is_address_tag (tags_of a).

(** The service a call encodes in its request, if any. *)
Definition op_service (op : Op) : option Service :=
  match op with
  | OpNewService s | OpIsServicePresent s | OpUpdateService s | OpDelService s
  | OpZeroService s | OpNewDestination s _ | OpUpdateDestination s _
  | OpDelDestination s _ | OpNewLocalAddress s _ | OpDelLocalAddress s _
  | OpGetDestinations s | OpGetLocalAddresses s | OpGetService s => Some s
  | _ => None
  end.

(** Whether the caller was told of a failure. *)
Definition failed (a : Answer) : bool :=
  match a with
  | AErr err | AServices _ err | AService _ err | ADestinations _ err
  | ALocalAddresses _ err | AConfig _ err | AInfo _ err | ADaemons _ err =>
      if err is Some _ then true else false
  | ABool b => negb b
  end.

Section CallAll.

Context `{Netlink}.

(** The calls of [ops], one after the other, on the same handle. *)
Fixpoint call_all (ops : list Op) : M Env (list Answer) :=
  match ops with
  | [] => mret []
  | op :: rest =>
      a ← call op;
      l ← call_all rest;
      mret (a :: l)
  end.

End CallAll.

(** ** A concrete machine for the examples *)

Definition no_kernel : list Request -> list Reply := fun _ => [].

(** A world with one open socket, where every external call succeeds
    except resolving a path other than [/var/run/netns/blue]. *)
Definition lab (k : list Request -> list Reply) : World :=
  {| sockets := [fresh_socket netns_None];
     open_ns := [];
     ipvs_ready := true;
     netns_lookup := fun path =>
       if bool_decide (path = "/var/run/netns/blue") then (7, None)
       else (netns_None, Some (Errno 2));
     socket_fault := fun _ => None;
     sndtimeo_fault := fun _ _ => None;
     rcvtimeo_fault := fun _ _ => None;
     send_fault := fun _ => None;
     kernel := k |}.

Definition lab_handle : Handle := {| seq := 0; sock := Some 0%nat |}.

Definition web : Service :=
  {| Address := [x0a; x00; x00; x01]; Protocol := IPPROTO_TCP; Port := 80;
     FWMark := 0; SchedName := "rr"; Flags := 0; Timeout := 0; Netmask := 0;
     AddressFamily := 0; PEName := "";
     Stats := assembleStats [] |}.

Definition marked : Service :=
  {| Address := [x0a; x00; x00; x01]; Protocol := IPPROTO_UDP; Port := 53;
     FWMark := 7; SchedName := "wlc"; Flags := 0; Timeout := 0; Netmask := 0;
     AddressFamily := AF_INET6; PEName := "";
     Stats := assembleStats [] |}.

(** A kernel that answers a dump with [n] copies of [msg] and the
    sentinel, and anything else with one data frame [msg]. *)
Definition canned (n : nat) (msg : Msg) : list Request -> list Reply :=
  fun history =>
    match last history with
    | Some rq =>
        if rq_dump rq then replicate n (RData (rq_seq rq) msg) ++ [RDone (rq_seq rq)]
        else [RData (rq_seq rq) msg]
    | None => []
    end.

(** A kernel that refuses every request with the code [code]. *)
Definition refusing (code : Z) : list Request -> list Reply :=
  fun history =>
    match last history with
    | Some rq => [RError (rq_seq rq) code]
    | None => []
    end.

(** What a computation answered, whatever state it left. *)
Definition answer_of {A S : Type} (o : Outcome (A * S)) : option A :=
  match o with
  | Returned (a, _) => Some a
  | Panicked _ => None
  end.

(** The lab after its handle was closed. *)
Definition closed_lab : World := with_sockets (alter sk_close 0%nat) (lab no_kernel).

(** A kernel reporting version 1.2.3 and a table of 4096 entries. *)
Definition info_msg : Msg :=
  [Leaf ipvsInfoAttrVersion (VU32 0x010203);
   Leaf ipvsInfoAttrConnTableSize (VU32 4096)].

(** ** More observations *)

(** The characters [%d] prints for a number that is not negative. *)
Definition is_digit (c : ascii) : bool :=
  match c with
  | "0" | "1" | "2" | "3" | "4" | "5" | "6" | "7" | "8" | "9" => true
  | _ => false
  end%char.

Fixpoint all_digits (s : string) : bool :=
  match s with
  | EmptyString => true
  | String c rest => is_digit c && all_digits rest
  end.

(** [m] keeps [P]: from a state in [P], [m] returns only in states in [P]. *)
Definition preserves {A : Type} (P : Env -> Prop) (m : M Env A) : Prop :=
  forall st a st', P st -> m st = Returned (a, st') -> P st'.

(** Every helper of [netlink.go] keeps [P]. *)
Definition helpers_preserve `{Netlink} (P : Env -> Prop) : Prop :=
  (forall s d cmd, preserves P (doCmd s d cmd))
  /\ (forall s l cmd, preserves P (doCmd2 s l cmd))
  /\ (forall cmd, preserves P (doCmdWithoutAttr cmd))
  /\ (forall svc, preserves P (doGetServicesCmd svc))
  /\ (forall s d, preserves P (doGetDestinationsCmd s d))
  /\ (forall s l, preserves P (doGetLocalAddressesCmd s l))
  /\ preserves P doGetConfigCmd
  /\ (forall c, preserves P (doSetConfigCmd c))
  /\ preserves P doGetInfoCmd
  /\ (forall d, preserves P (doGetDaemonCmd d))
  /\ (forall d, preserves P (doNewDaemonCmd d))
  /\ (forall d, preserves P (doDelDaemonCmd d)).

(** The handle points at [s] and the socket table has [n] entries. *)
Definition shape (s : option SockRef) (n : nat) : Env -> Prop :=
  fun st => sock st.1 = s /\ length (sockets st.2) = n.

(** The namespace [New path] works in, seen from the world [w]: the
    caller's own for the empty path, the one the resolver finds otherwise. *)
Definition resolved (w : World) (path : string) (n : NsHandle) : Prop :=
  (path = "" /\ n = netns_None) \/ (path <> "" /\ netns_lookup w path = (n, None)).

(** The lab with chosen answers to opening a socket and to setting its
    send and receive timeouts. *)
Definition lab_faults (on_open on_snd on_rcv : option error) : World :=
  {| sockets := [fresh_socket netns_None];
     open_ns := [];
     ipvs_ready := true;
     netns_lookup := fun path =>
       if bool_decide (path = "/var/run/netns/blue") then (7, None)
       else (netns_None, Some (Errno 2));
     socket_fault := fun _ => on_open;
     sndtimeo_fault := fun _ _ => on_snd;
     rcvtimeo_fault := fun _ _ => on_rcv;
     send_fault := fun _ => None;
     kernel := no_kernel |}.

(** A kernel reporting the version word [v]. *)
Definition reporting (v : Z) : list Request -> list Reply :=
  canned 1 [Leaf ipvsInfoAttrVersion (VU32 v); Leaf ipvsInfoAttrConnTableSize (VU32 4096)].

(** ** Proof tools *)

Ltac unfold_monad :=
  cbv beta delta [mbind mret fmap M_bind M_ret M_fmap gets modify through
                  in_world defer panic] in *.

Ltac unfold_api :=
  unfold call, NewService, IsServicePresent, UpdateService, DelService, Flush,
    ZeroService, Zero, NewDestination, UpdateDestination, DelDestination,
    NewLocalAddress, DelLocalAddress, GetServices, GetDestinations,
    GetLocalAddresses, GetService, GetConfig, SetConfig, GetInfo, GetDaemons,
    NewDaemon, DelDaemon in *;
  cbn [Model.netlink setup doCmd doCmd2 doCmdWithoutAttr doGetServicesCmd
       doGetDestinationsCmd doGetLocalAddressesCmd doGetConfigCmd doSetConfigCmd
       doGetInfoCmd doGetDaemonCmd doNewDaemonCmd doDelDaemonCmd] in *;
  unfold Model.doCmd, Model.doCmd2, Model.doCmdWithoutAttr, Model.doGetServicesCmd,
    Model.doGetDestinationsCmd, Model.doGetLocalAddressesCmd, Model.doGetConfigCmd,
    Model.doSetConfigCmd, Model.doGetInfoCmd, Model.doGetDaemonCmd,
    Model.doNewDaemonCmd, Model.doDelDaemonCmd in *.

Ltac unfold_New :=
  unfold New, GetFromPath, GetNetlinkSocketAt, SetSendTimeout, SetReceiveTimeout,
    NsHandle_Close in *;
  unfold_monad; simpl in *;
  change (NsecToTimeval (Nanoseconds netlinkSendSocketTimeout))
    with {| tv_sec := 30; tv_usec := 0 |} in *;
  change (NsecToTimeval (Nanoseconds netlinkRecvSocketsTimeout))
    with {| tv_sec := 3; tv_usec := 0 |} in *.

Ltac use_resolved H :=
  let Hp := fresh "Hpath" in
  let Hl := fresh "Hlookup" in
  (destruct H as [[-> ->]|[Hp Hl]];
   [rewrite bool_decide_false by (intros Hne; apply Hne; reflexivity)
   |rewrite (bool_decide_true _ Hp), Hl]); simpl.

(** * Properties *)

(** ** The String methods *)

(** C9: the protocol names form a closed mapping: [IPProto.String] is
    "TCP" on the TCP number, "UDP" on the UDP number, and on every other
    value the fallback "IP(n)" with [n] the value in decimal. *)
Theorem IPProto_String_closed_mapping (p : IPProto) :
  (p = IPPROTO_TCP -> IPProto_String p = "TCP")
  /\ (p = IPPROTO_UDP -> IPProto_String p = "UDP")
  /\ (p <> IPPROTO_TCP -> p <> IPPROTO_UDP ->
      IPProto_String p = "IP(" +:+ fmt_d p +:+ ")").
Proof.
  unfold IPProto_String. repeat split.
  - intros ->. reflexivity.
  - intros ->. reflexivity.
  - intros Htcp Hudp.
    destruct (Z.eqb_spec p IPPROTO_TCP) as [|_]; [contradiction|].
    destruct (Z.eqb_spec p IPPROTO_UDP) as [|_]; [contradiction|].
    reflexivity.
Qed.

Lemma IPProto_String_examples :
  IPPROTO_TCP = 6 /\ IPPROTO_UDP = 17
  /\ IPProto_String 6 = "TCP" /\ IPProto_String 17 = "UDP"
  /\ IPProto_String 47 = "IP(47)" /\ IPProto_String 0 = "IP(0)"
  /\ IPProto_String 65535 = "IP(65535)".
Proof.
  pose proof (IPProto_String_closed_mapping 6) as (H6 & _ & _).
  pose proof (IPProto_String_closed_mapping 17) as (_ & H17 & _).
  pose proof (IPProto_String_closed_mapping 47) as (_ & _ & H47).
  pose proof (IPProto_String_closed_mapping 0) as (_ & _ & H0).
  pose proof (IPProto_String_closed_mapping 65535) as (_ & _ & Hmax).
  split; [reflexivity|]. split; [reflexivity|].
  split; [apply H6; reflexivity|]. split; [apply H17; reflexivity|].
  split; [|split].
  - rewrite H47 by (unfold IPPROTO_TCP, IPPROTO_UDP; lia). reflexivity.
  - rewrite H0 by (unfold IPPROTO_TCP, IPPROTO_UDP; lia). reflexivity.
  - rewrite Hmax by (unfold IPPROTO_TCP, IPPROTO_UDP; lia). reflexivity.
Defined.

(** C10: two services with the same positive firewall mark and the same
    scheduler name render to the same string, whatever their address,
    protocol, port and other fields, and however addresses are printed:
    the string is "FMW <mark> (<scheduler>)". *)
Theorem Service_String_fwmark_mode (f g : IP -> string) (a b : Service) :
  0 < FWMark a -> FWMark a = FWMark b -> SchedName a = SchedName b ->
  Service_String f a = Service_String g b
  /\ Service_String f a = "FMW " +:+ fmt_d (FWMark a) +:+ " (" +:+ SchedName a +:+ ")".
Proof.
  intros Hpos Hmark Hsched. unfold Service_String.
  rewrite <- Hmark, <- Hsched.
  destruct (Z.ltb_spec 0 (FWMark a)); [split; reflexivity | lia].
Qed.

Lemma Service_String_fwmark_mode_example :
  Service_String (fun _ => "10.0.0.1") marked
  = Service_String (fun _ => "::1")
      {| Address := []; Protocol := IPPROTO_TCP; Port := 443; FWMark := 7;
         SchedName := "wlc"; Flags := 1; Timeout := 300; Netmask := 0;
         AddressFamily := AF_INET; PEName := "sip"; Stats := assembleStats [] |}
  /\ Service_String (fun _ => "10.0.0.1") marked = "FMW 7 (wlc)".
Proof.
  apply Service_String_fwmark_mode.
  - simpl. lia.
  - reflexivity.
  - reflexivity.
Defined.

(** ** Bit fields of the version word *)

Lemma byte_field_bits (v k i : Z) :
  0 <= k -> 0 <= i < 8 ->
  Z.testbit (Z.land (Z.shiftr v k) 0xff) i = Z.testbit v (k + i).
Proof.
  intros Hk Hi. rewrite Z.land_spec, Z.shiftr_spec by lia.
  change 0xff with (Z.ones 8). rewrite Z.ones_spec_low by lia.
  rewrite andb_true_r. f_equal. lia.
Qed.

Lemma byte_field_value (v k : Z) :
  0 <= k -> Z.land (Z.shiftr v k) 0xff = (v / 2 ^ k) mod 2 ^ 8.
Proof.
  intros Hk. change 0xff with (Z.ones 8).
  rewrite Z.land_ones by lia. rewrite Z.shiftr_div_pow2 by lia. reflexivity.
Qed.

Lemma to_uint_small (v : Z) : 0 <= v < 2 ^ 32 -> to_uint v = v.
Proof. intros Hv. unfold to_uint. apply Z.mod_small. lia. Qed.

(** ** The methods of ipvs.go, over any behaviour of the helpers *)

Section OnTheCode.

Context `{Netlink}.

(** C3: when the helper hands back a 32-bit version word [v], [GetInfo]
    returns a Version whose Major is bits 16-23 of [v], Minor bits 8-15 and
    Patch bits 0-7, each at most 255; the word 0x010203 gives 1.2.3. *)
Theorem GetInfo_version_fields (v c : Z) (st st' : Env) :
  0 <= v < 2 ^ 32 ->
  doGetInfoCmd st = Returned ((Some {| version := v; connTableSize := c |}, None), st') ->
  exists ver : Version,
    GetInfo st
    = Returned ((Some {| info_Version := Some ver; ConnTableSize := c |}, None), st')
    /\ Major ver = (v / 2 ^ 16) mod 2 ^ 8
    /\ Minor ver = (v / 2 ^ 8) mod 2 ^ 8
    /\ Patch ver = v mod 2 ^ 8
    /\ (forall i, 0 <= i < 8 ->
          Z.testbit (Major ver) i = Z.testbit v (16 + i)
          /\ Z.testbit (Minor ver) i = Z.testbit v (8 + i)
          /\ Z.testbit (Patch ver) i = Z.testbit v i)
    /\ 0 <= Major ver <= 255 /\ 0 <= Minor ver <= 255 /\ 0 <= Patch ver <= 255
    /\ (v = 0x010203 -> ver = {| Major := 1; Minor := 2; Patch := 3 |}).
Proof.
  intros Hv Hcmd.
  exists {| Major := Z.land (Z.shiftr v 16) 0xff;
            Minor := Z.land (Z.shiftr v 8) 0xff;
            Patch := Z.land v 0xff |}.
  split.
  { unfold GetInfo. unfold_monad. rewrite Hcmd. simpl.
    rewrite to_uint_small by exact Hv. reflexivity. }
  simpl.
  pose proof (byte_field_value v 16 ltac:(lia)) as HM.
  pose proof (byte_field_value v 8 ltac:(lia)) as Hm.
  pose proof (byte_field_value v 0 ltac:(lia)) as Hp.
  rewrite Z.shiftr_0_r in Hp. rewrite Z.pow_0_r, Z.div_1_r in Hp.
  rewrite HM, Hm, Hp.
  split; [reflexivity|]. split; [reflexivity|]. split; [reflexivity|].
  split.
  { intros i Hi. rewrite <- HM, <- Hm, <- Hp.
    split; [apply byte_field_bits; lia|].
    split; [apply byte_field_bits; lia|].
    rewrite <- (Z.shiftr_0_r v) at 1. apply (byte_field_bits v 0 i); lia. }
  pose proof (Z.mod_pos_bound (v / 2 ^ 16) (2 ^ 8) ltac:(lia)).
  pose proof (Z.mod_pos_bound (v / 2 ^ 8) (2 ^ 8) ltac:(lia)).
  pose proof (Z.mod_pos_bound v (2 ^ 8) ltac:(lia)).
  split; [lia|]. split; [lia|]. split; [lia|].
  intros ->. reflexivity.
Qed.

(** C1: [GetService] hands back the one service of the filtered dump when
    the dump yields exactly one; when it yields none or several it hands
    back no service and an error naming the count; a service is handed
    back in no other case. *)
Theorem GetService_exactly_one (s : Service) (st st' : Env)
    (res : list Service) (err : option error) :
  doGetServicesCmd (Some s) st = Returned ((res, err), st') ->
  (forall svc, err = None -> res = [svc] ->
     GetService s st = Returned ((Some svc, None), st'))
  /\ (err = None -> length res <> 1%nat ->
      GetService s st
      = Returned ((None, Some (errorString
          ("Expected only one service obtained=" +:+ fmt_d (Z.of_nat (length res))))), st'))
  /\ (forall e, err = Some e -> GetService s st = Returned ((None, Some e), st'))
  /\ (forall svc err' st'', GetService s st = Returned ((Some svc, err'), st'') ->
      err = None /\ res = [svc] /\ err' = None /\ st'' = st').
Proof.
  intros Hdump. unfold GetService. unfold_monad. rewrite Hdump.
  split; [|split; [|split]].
  - intros svc -> ->. reflexivity.
  - intros -> Hlen. simpl.
    destruct (Nat.eqb_spec (length res) 1); [contradiction | reflexivity].
  - intros e ->. reflexivity.
  - intros svc err' st''. destruct err as [e|]; simpl.
    + intros [=].
    + destruct (Nat.eqb_spec (length res) 1) as [Hone|Hmany]; simpl.
      * destruct res as [|x [|y l]]; try discriminate Hone.
        simpl. intros [= -> <- <-]. auto.
      * intros [=].
Qed.

(** C4: [IsServicePresent] answers true exactly when the Get command on
    the service returned no error, and false on every error alike: the
    boolean carries nothing of the error. *)
Theorem IsServicePresent_is_Get_succeeding (s : Service) (st st' : Env)
    (err : option error) :
  doCmd s None ipvsCmdGetService st = Returned (err, st') ->
  exists b : bool,
    IsServicePresent s st = Returned (b, st')
    /\ (b = true <-> err = None)
    /\ (forall e, err = Some e -> b = false).
Proof.
  intros Hget. unfold IsServicePresent. unfold_monad. rewrite Hget.
  destruct err as [e|]; eexists; (split; [reflexivity|]); split.
  - split; discriminate.
  - reflexivity.
  - split; reflexivity.
  - discriminate.
Qed.

(** C7: when the namespace at [path] does not resolve, [New] returns the
    resolver's error and no handle, and leaves the world as [setup] left
    it: no socket was asked for. *)
Theorem New_resolver_error_first (path : string) (w : World) (n : NsHandle) (e : error) :
  path <> "" ->
  netns_lookup (setup w) path = (n, Some e) ->
  New path w = Returned ((None, Some e), setup w).
Proof.
  intros Hpath Hlookup. unfold New. unfold_monad. simpl.
  rewrite bool_decide_true by exact Hpath.
  unfold GetFromPath. rewrite Hlookup. reflexivity.
Qed.



End OnTheCode.

(** On a handle that exists, [Close] returns, whether the handle has a
    socket or not; it has no error to give, and the nil check keeps it
    from calling through a nil socket. *)
Theorem Close_always_returns (i : Handle) (w : World) :
  exists w' : World,
    Close (i, w) = Returned (tt, (i, w'))
    /\ w' = match sock i with
            | Some s => with_sockets (alter sk_close s) w
            | None => w
            end.
Proof.
  unfold Close. unfold_monad. simpl.
  destruct (sock i) as [s|]; eexists; split; reflexivity.
Qed.

(** Without the check, closing a handle that has no socket would panic. *)
Lemma unguarded_Close_panics (i : Handle) (w : World) :
  sock i = None ->
  through (sock i) (fun s => in_world (NetlinkSocket_Close s)) (i, w)
  = Panicked nil_dereference.
Proof. intros ->. reflexivity. Qed.

(** C6, amended: called through a pointer to a handle that exists, [Close]
    returns, whether the handle's socket is nil or not, open or already
    closed, and it leaves the handle as it is; called through the nil
    pointer, which is what [New] hands back beside an error, it panics on
    the dereference of its receiver. *)
Theorem Close_returns_unless_receiver_nil :
  (forall (i : Handle) (w : World),
     exists w',
       Close_on (Some i) w = Returned (tt, w')
       /\ Close (i, w) = Returned (tt, (i, w'))
       /\ w' = match sock i with
               | Some s => with_sockets (alter sk_close s) w
               | None => w
               end)
  /\ (forall w : World, Close_on None w = Panicked nil_dereference).
Proof.
  split.
  - intros i w. unfold Close_on, Close. unfold_monad. simpl.
    destruct (sock i) as [s|]; eexists; repeat split; reflexivity.
  - intros w. reflexivity.
Qed.

(** [New] on a path that does not resolve hands back the nil handle, and
    [Close] through it panics. *)
Lemma Close_after_failed_New_panics :
  exists (p : option Handle) (e : error) (w' : World),
    New (H := Model.netlink) "/var/run/netns/red" (lab no_kernel)
    = Returned ((p, Some e), w')
    /\ p = None
    /\ Close_on p w' = Panicked nil_dereference.
Proof.
  exists None, (Errno 2), (lab no_kernel).
  split; [vm_compute; reflexivity|]. split; reflexivity.
Qed.

(** ** The methods on the lab machine *)

Lemma GetInfo_version_fields_example :
  answer_of (GetInfo (H := Model.netlink) (lab_handle, lab (canned 1 info_msg)))
  = Some (Some {| info_Version := Some {| Major := 1; Minor := 2; Patch := 3 |};
                  ConnTableSize := 4096 |}, None).
Proof.
  edestruct (GetInfo_version_fields (H := Model.netlink) 0x010203 4096
               (lab_handle, lab (canned 1 info_msg)))
    as (ver & Hrun & _ & _ & _ & _ & _ & _ & _ & Hver).
  - lia.
  - vm_compute. reflexivity.
  - rewrite Hrun, (Hver eq_refl). reflexivity.
Defined.

Lemma GetService_exactly_one_example :
  answer_of (GetService (H := Model.netlink) web
               (lab_handle, lab (canned 0 [fillService web])))
  = Some (None, Some (errorString "Expected only one service obtained=0"))
  /\ answer_of (GetService (H := Model.netlink) web
                  (lab_handle, lab (canned 2 [fillService web])))
     = Some (None, Some (errorString "Expected only one service obtained=2"))
  /\ answer_of (GetService (H := Model.netlink) web
                  (lab_handle, lab (canned 1 [fillService web])))
     = Some (Some (parseService [fillService web]), None)
  /\ answer_of (GetService (H := Model.netlink) web
                  (lab_handle, lab (refusing (-2))))
     = Some (None, Some (Errno (-2))).
Proof.
  split; [|split; [|split]].
  - edestruct (GetService_exactly_one (H := Model.netlink) web
                 (lab_handle, lab (canned 0 [fillService web]))) as (_ & Hnot & _).
    + vm_compute. reflexivity.
    + rewrite Hnot by (simpl; congruence). reflexivity.
  - edestruct (GetService_exactly_one (H := Model.netlink) web
                 (lab_handle, lab (canned 2 [fillService web]))) as (_ & Hnot & _).
    + vm_compute. reflexivity.
    + rewrite Hnot by (simpl; congruence). reflexivity.
  - edestruct (GetService_exactly_one (H := Model.netlink) web
                 (lab_handle, lab (canned 1 [fillService web]))) as (Hone & _).
    + vm_compute. reflexivity.
    + rewrite (Hone _ eq_refl eq_refl). reflexivity.
  - edestruct (GetService_exactly_one (H := Model.netlink) web
                 (lab_handle, lab (refusing (-2)))) as (_ & _ & Herr & _).
    + vm_compute. reflexivity.
    + rewrite (Herr _ eq_refl). reflexivity.
Defined.

Lemma IsServicePresent_example :
  answer_of (IsServicePresent (H := Model.netlink) web
               (lab_handle, lab (canned 1 [fillService web]))) = Some true
  /\ answer_of (IsServicePresent (H := Model.netlink) web
                  (lab_handle, lab (refusing (-2)))) = Some false
  /\ answer_of (IsServicePresent (H := Model.netlink) web
                  (lab_handle, lab (refusing (-3)))) = Some false.
Proof.
  split; [|split].
  - edestruct (IsServicePresent_is_Get_succeeding (H := Model.netlink) web
                 (lab_handle, lab (canned 1 [fillService web])))
      as (b & Hrun & Hiff & _).
    + vm_compute. reflexivity.
    + rewrite Hrun. simpl. f_equal. apply Hiff. reflexivity.
  - edestruct (IsServicePresent_is_Get_succeeding (H := Model.netlink) web
                 (lab_handle, lab (refusing (-2)))) as (b & Hrun & _ & Hno).
    + vm_compute. reflexivity.
    + rewrite Hrun. simpl. f_equal. eapply Hno. reflexivity.
  - edestruct (IsServicePresent_is_Get_succeeding (H := Model.netlink) web
                 (lab_handle, lab (refusing (-3)))) as (b & Hrun & _ & Hno).
    + vm_compute. reflexivity.
    + rewrite Hrun. simpl. f_equal. eapply Hno. reflexivity.
Defined.

Lemma New_resolver_error_example :
  New (H := Model.netlink) "/var/run/netns/red" (lab no_kernel)
  = Returned ((None, Some (Errno 2)), lab no_kernel)
  /\ sockets (lab no_kernel) = [fresh_socket netns_None].
Proof.
  split; [|reflexivity].
  apply (New_resolver_error_first (H := Model.netlink)
           "/var/run/netns/red" (lab no_kernel) netns_None (Errno 2)).
  - discriminate.
  - reflexivity.
Defined.


(** ** The modelled helpers: closed handles, and what goes on the wire *)

Lemma exchange_unusable (cmd : Cmd) (dump : bool) (attrs : list Attr)
    (i : Handle) (w : World) (s : SockRef) :
  sock i = Some s -> usable w s = false ->
  Model.exchange cmd dump attrs (i, w)
  = Returned (([], Some EBADF), ({| seq := uint32_succ (seq i); sock := Some s |}, w)).
Proof.
  intros Hsock Hdead. unfold Model.exchange, Model.newIPVSRequest, Model.execute.
  unfold_monad. simpl. rewrite Hsock. unfold Model.Send. rewrite Hdead. reflexivity.
Qed.

Lemma closed_unusable (i : Handle) (s : SockRef) (w w' : World) :
  sock i = Some s -> Close (i, w) = Returned (tt, (i, w')) -> usable w' s = false.
Proof.
  intros Hsock. unfold Close, NetlinkSocket_Close. unfold_monad. simpl.
  rewrite Hsock. intros [= <-]. unfold usable. simpl.
  rewrite list_lookup_alter_eq. destruct (sockets w !! s); reflexivity.
Qed.

Lemma closed_keeps_wire (i : Handle) (w w' : World) :
  Close (i, w) = Returned (tt, (i, w')) -> forall fd, sent_on w' fd = sent_on w fd.
Proof.
  unfold Close, NetlinkSocket_Close. unfold_monad. simpl.
  destruct (sock i) as [s|]; intros [= <-] fd; [|reflexivity].
  unfold sent_on. simpl.
  destruct (decide (s = fd)) as [->|Hne].
  - rewrite list_lookup_alter_eq. destruct (sockets w !! fd); reflexivity.
  - rewrite list_lookup_alter_ne by exact Hne. reflexivity.
Qed.

Lemma call_unusable (op : Op) (i : Handle) (w : World) (s : SockRef) :
  sock i = Some s -> usable w s = false ->
  exists a i',
    call (H := Model.netlink) op (i, w) = Returned (a, (i', w))
    /\ failed a = true /\ sock i' = Some s.
Proof.
  intros Hsock Hdead.
  destruct op; unfold_api; unfold_monad; simpl;
    repeat match goal with
           | |- context [checkService ?x] => destruct (checkService x); simpl
           | |- context [checkDestination ?x] => destruct (checkDestination x); simpl
           | |- context [mixed_family ?a ?b] => destruct (mixed_family a b); simpl
           end;
    rewrite ?(exchange_unusable _ _ _ i w s Hsock Hdead); simpl; eauto.
Qed.

(** C5: once [Close] has run on a handle that had a socket, every call
    made on it afterwards fails, the world stays exactly as [Close] left
    it (nothing is sent, nothing is received), and the socket stays
    closed, however many calls follow. *)
Theorem closed_handle_is_terminal (i : Handle) (s : SockRef) (w w' : World)
    (ops : list Op) :
  sock i = Some s ->
  Close (i, w) = Returned (tt, (i, w')) ->
  exists answers i',
    call_all (H := Model.netlink) ops (i, w') = Returned (answers, (i', w'))
    /\ length answers = length ops
    /\ Forall (fun a => failed a = true) answers
    /\ sock i' = Some s
    /\ usable w' s = false
    /\ (forall fd, sent_on w' fd = sent_on w fd).
Proof.
  intros Hsock Hclose.
  pose proof (closed_unusable i s w w' Hsock Hclose) as Hdead.
  pose proof (closed_keeps_wire i w w' Hclose) as Hwire.
  clear Hclose. revert i Hsock.
  induction ops as [|op ops IH]; intros i Hsock.
  - exists [], i. simpl. auto 6.
  - destruct (call_unusable op i w' s Hsock Hdead) as (a & i1 & Hcall & Hfail & Hsock1).
    destruct (IH i1 Hsock1) as (answers & i2 & Hrest & Hlen & Hall & Hsock2 & _).
    exists (a :: answers), i2. simpl. unfold_monad. rewrite Hcall, Hrest.
    split; [reflexivity|]. split; [simpl; congruence|].
    split; [constructor; assumption|]. auto.
Qed.

Lemma exchange_wire (cmd : Cmd) (dump : bool) (attrs : list Attr)
    (st st' : Env) (r : list Msg * option error) :
  Model.exchange cmd dump attrs st = Returned (r, st') ->
  exists rq, rq_attrs rq = attrs /\
    forall fd, sent_on (snd st') fd = sent_on (snd st) fd
               \/ sent_on (snd st') fd = sent_on (snd st) fd ++ [rq].
Proof.
  destruct st as [i w].
  unfold Model.exchange, Model.newIPVSRequest, Model.execute, Model.Send, Model.Receive.
  unfold_monad. simpl. unfold usable.
  set (rq := {| rq_cmd := cmd; rq_seq := uint32_succ (seq i); rq_dump := dump;
                rq_attrs := attrs |}).
  intros Hrun. exists rq. split; [reflexivity|]. intros fd. revert Hrun.
  destruct (sock i) as [s|]; [|discriminate].
  destruct (sockets w !! s) as [sk|] eqn:Hsk; simpl; [|intros [= <- <-]; auto].
  destruct (sk_closed sk) eqn:Hopen; simpl; [intros [= <- <-]; auto|].
  destruct (send_fault w rq); simpl; [intros [= <- <-]; auto|].
  rewrite list_lookup_alter_eq, Hsk. simpl. rewrite Hopen.
  match goal with |- context [let '(_, _) := ?x in _] => destruct x as [a rest] end.
  intros [= <- <-]. unfold sent_on. simpl.
  destruct (decide (fd = s)) as [->|Hne].
  - right. rewrite !list_lookup_alter_eq, Hsk. reflexivity.
  - left. rewrite !list_lookup_alter_ne by congruence. reflexivity.
Qed.

Lemma fwmark_identity (s : Service) :
  0 < FWMark s -> identity_tags [fillService s] = [ipvsSvcAttrFWMark].
Proof.
  intros Hmark. unfold identity_tags, fillService, identity_attrs, option_attrs.
  destruct (Z.ltb_spec 0 (FWMark s)); [|lia].
  destruct (bool_decide (PEName s <> "")); reflexivity.
Qed.

Lemma one_identification_mode (s : Service) :
  xorb (by_fwmark (fillService s)) (by_address (fillService s)) = true.
Proof.
  unfold by_fwmark, by_address, fillService, identity_attrs, option_attrs.
  destruct (0 <? FWMark s); destruct (bool_decide (PEName s <> "")); reflexivity.
Qed.

Lemma identity_tags_cons_service (s : Service) (rest : list Attr) :
  identity_tags rest = [] ->
  identity_tags (fillService s :: rest) = identity_tags [fillService s].
Proof.
  unfold identity_tags. intros Hrest.
  change (flat_map tags_of (fillService s :: rest))
    with (tags_of (fillService s) ++ flat_map tags_of rest).
  change (flat_map tags_of [fillService s]) with (tags_of (fillService s) ++ []).
  rewrite !List.filter_app, Hrest. reflexivity.
Qed.

Lemma call_wire (op : Op) (s : Service) (st st' : Env) (a : Answer) :
  op_service op = Some s ->
  call (H := Model.netlink) op st = Returned (a, st') ->
  forall fd,
    sent_on (snd st') fd = sent_on (snd st) fd
    \/ exists rq,
         sent_on (snd st') fd = sent_on (snd st) fd ++ [rq]
         /\ fillService s ∈ rq_attrs rq
         /\ identity_tags (rq_attrs rq) = identity_tags [fillService s].
Proof.
  intros Hsvc Hcall fd.
  destruct op; simpl in Hsvc; simplify_eq; unfold_api; unfold_monad; simpl in Hcall.
  all: repeat match type of Hcall with
         | context [checkService ?x] => destruct (checkService x); simpl in Hcall
         | context [mixed_family ?a ?b] => destruct (mixed_family a b); simpl in Hcall
         end.
  all: try (simplify_eq; left; reflexivity).
  all: match type of Hcall with
       | context [Model.exchange ?c ?d ?xs ?st0] =>
           destruct (Model.exchange c d xs st0) as [[r1 st1]|] eqn:Hex;
           [|discriminate Hcall]
       end.
  all: destruct (exchange_wire _ _ _ _ _ _ Hex) as (rq & Hattrs & Hwire).
  all: assert (st' = st1) as -> by (destruct r1; repeat case_match; simplify_eq; reflexivity).
  all: destruct (Hwire fd) as [Hsame|Hmore]; [left; exact Hsame|right].
  all: exists rq; rewrite Hattrs; split; [exact Hmore|].
  all: split; [apply list_elem_of_here|].
  all: apply identity_tags_cons_service; reflexivity.
Qed.

(** C2: a service is encoded under exactly one identification mode; with
    a positive firewall mark its container carries the firewall-mark
    attribute and none of address family, protocol, address and port, and
    so does every frame that a call encoding the service puts on the
    wire. *)
Theorem fwmark_service_is_identified_by_mark_only (s : Service) :
  xorb (by_fwmark (fillService s)) (by_address (fillService s)) = true
  /\ (0 < FWMark s ->
      identity_tags [fillService s] = [ipvsSvcAttrFWMark]
      /\ by_fwmark (fillService s) = true
      /\ by_address (fillService s) = false
      /\ forall (op : Op) (st st' : Env) (a : Answer) (fd : SockRef),
           op_service op = Some s ->
           call (H := Model.netlink) op st = Returned (a, st') ->
           sent_on (snd st') fd = sent_on (snd st) fd
           \/ exists rq,
                sent_on (snd st') fd = sent_on (snd st) fd ++ [rq]
                /\ fillService s ∈ rq_attrs rq
                /\ identity_tags (rq_attrs rq) = [ipvsSvcAttrFWMark]).
Proof.
  split; [apply one_identification_mode|].
  intros Hmark.
  split; [apply fwmark_identity; exact Hmark|].
  assert (by_fwmark (fillService s) = true) as Hby.
  { unfold by_fwmark, fillService, identity_attrs.
    destruct (Z.ltb_spec 0 (FWMark s)); [reflexivity|lia]. }
  split; [exact Hby|].
  split.
  { pose proof (one_identification_mode s) as Hone. rewrite Hby in Hone.
    destruct (by_address (fillService s)); [discriminate|reflexivity]. }
  intros op st st' a fd Hsvc Hcall.
  destruct (call_wire op s st st' a Hsvc Hcall fd) as [Hsame|(rq & Hsent & Hin & Hid)].
  - left. exact Hsame.
  - right. exists rq. rewrite Hid, fwmark_identity by exact Hmark. auto.
Qed.

Lemma closed_handle_example :
  exists answers i',
    call_all (H := Model.netlink)
      [OpNewService web; OpGetServices; OpIsServicePresent marked; OpGetInfo; OpFlush]
      (lab_handle, closed_lab)
    = Returned (answers, (i', closed_lab))
    /\ length answers = 5%nat
    /\ Forall (fun a => failed a = true) answers
    /\ sock i' = Some 0%nat
    /\ usable closed_lab 0 = false
    /\ (forall fd, sent_on closed_lab fd = sent_on (lab no_kernel) fd).
Proof.
  apply (closed_handle_is_terminal lab_handle 0%nat (lab no_kernel) closed_lab
           [OpNewService web; OpGetServices; OpIsServicePresent marked; OpGetInfo; OpFlush]).
  - reflexivity.
  - reflexivity.
Defined.

Lemma open_handle_answers :
  answer_of (call (H := Model.netlink) (OpNewService web)
               (lab_handle, lab (canned 1 [])))
  = Some (AErr None).
Proof. vm_compute. reflexivity. Qed.

Lemma fwmark_service_example :
  identity_tags [fillService marked] = [ipvsSvcAttrFWMark]
  /\ identity_tags [fillService web]
     = [ipvsSvcAttrAddressFamily; ipvsSvcAttrProtocol; ipvsSvcAttrAddress; ipvsSvcAttrPort]
  /\ exists a st' rq,
       call (H := Model.netlink) (OpNewDestination marked (assembleDestination []))
         (lab_handle, lab (canned 1 []))
       = Returned (a, st')
       /\ sent_on (snd st') 0 = [rq]
       /\ rq_cmd rq = ipvsCmdNewDest
       /\ identity_tags (rq_attrs rq) = [ipvsSvcAttrFWMark].
Proof.
  destruct (fwmark_service_is_identified_by_mark_only marked) as [_ Hmarked].
  destruct Hmarked as (Hid & _ & _ & Hwire); [simpl; lia|].
  split; [exact Hid|]. split; [reflexivity|].
  destruct (call (H := Model.netlink) (OpNewDestination marked (assembleDestination []))
              (lab_handle, lab (canned 1 []))) as [[a st']|msg] eqn:Hrun;
    [|vm_compute in Hrun; discriminate Hrun].
  destruct (Hwire (OpNewDestination marked (assembleDestination [])) _ _ _ 0%nat
              eq_refl Hrun) as [Hsame|(rq & Hsent & _ & Hrq)].
  - vm_compute in Hrun. injection Hrun as <- <-. discriminate Hsame.
  - exists a, st', rq. split; [reflexivity|]. split; [exact Hsent|].
    split; [|exact Hrq].
    vm_compute in Hrun. injection Hrun as <- <-.
    injection Hsent as <-. reflexivity.
Defined.

(** * More of ipvs.go *)

(** ** What the rendered strings tell apart *)

Lemma fmt_d_inj (x y : Z) : fmt_d x = fmt_d y -> x = y.
Proof.
  unfold fmt_d. intros Heq.
  assert (Hparse : forall z, NilZero.int_of_string (NilZero.string_of_int (Z.to_int z))
                             = Some (Z.to_int z)).
  { intros z. apply NilZero.isi; destruct z; simpl; try discriminate.
    - intros [= Hnil]. exact (Unsigned.to_uint_nonnil _ Hnil).
    - intros [= Hnil]. exact (Unsigned.to_uint_nonnil _ Hnil). }
  pose proof (Hparse x) as Hx. rewrite Heq, Hparse in Hx.
  injection Hx as Hx. rewrite <- (DecimalZ.of_to x), <- (DecimalZ.of_to y).
  congruence.
Qed.

Lemma uint_digits (d : Decimal.uint) : all_digits (NilEmpty.string_of_uint d) = true.
Proof. induction d; simpl; auto. Qed.

Lemma fmt_d_digits (z : Z) : 0 <= z -> all_digits (fmt_d z) = true.
Proof.
  intros Hz. unfold fmt_d. destruct z as [|p|p]; [reflexivity| |lia].
  simpl. unfold NilZero.string_of_uint.
  destruct (Pos.to_uint p) eqn:Hp; try (rewrite <- Hp; apply uint_digits).
  reflexivity.
Qed.

Lemma append_cancel_r (s t u : string) : s +:+ u = t +:+ u -> s = t.
Proof.
  assert (Hlen : forall a b : string,
            String.length (a +:+ b) = (String.length a + String.length b)%nat).
  { induction a; intros b; simpl; auto. }
  revert t. induction s as [|c s IH]; intros [|c' t] Heq; simpl in Heq.
  - reflexivity.
  - apply (f_equal String.length) in Heq. simpl in Heq. rewrite ?Hlen in Heq.
    simpl in Heq. lia.
  - apply (f_equal String.length) in Heq. simpl in Heq. rewrite ?Hlen in Heq.
    simpl in Heq. lia.
  - injection Heq as -> Heq. f_equal. apply IH. exact Heq.
Qed.

(** A run of digits ends at the first character that is no digit. *)
Lemma digits_then_mark (c : ascii) (d1 d2 r1 r2 : string) :
  is_digit c = false ->
  all_digits d1 = true -> all_digits d2 = true ->
  d1 +:+ String c r1 = d2 +:+ String c r2 ->
  d1 = d2 /\ r1 = r2.
Proof.
  intros Hc. revert d2.
  induction d1 as [|a d1 IH]; intros [|b d2] H1 H2 Heq; simpl in *.
  - injection Heq as ->. auto.
  - injection Heq as <- _. apply andb_prop in H2 as [H2 _]. congruence.
  - injection Heq as -> _. apply andb_prop in H1 as [H1 _]. congruence.
  - injection Heq as -> Heq. apply andb_prop in H1 as [_ H1].
    apply andb_prop in H2 as [_ H2].
    destruct (IH d2 H1 H2 Heq) as [-> ->]. auto.
Qed.

(** X1: protocol numbers with different values never share a name:
    [IPProto.String] is injective. *)
Theorem IPProto_String_distinct (p q : IPProto) :
  IPProto_Value p <> IPProto_Value q -> IPProto_String p <> IPProto_String q.
Proof.
  unfold IPProto_Value, IPProto_String. intros Hne Heq.
  destruct (Z.eqb_spec p IPPROTO_TCP) as [->|Hp6];
    destruct (Z.eqb_spec q IPPROTO_TCP) as [->|Hq6]; try (contradiction || discriminate).
  - destruct (Z.eqb_spec q IPPROTO_UDP); discriminate.
  - destruct (Z.eqb_spec p IPPROTO_UDP); discriminate.
  - destruct (Z.eqb_spec p IPPROTO_UDP) as [->|Hp17];
      destruct (Z.eqb_spec q IPPROTO_UDP) as [->|Hq17]; try (contradiction || discriminate).
    apply String.app_inj, append_cancel_r, fmt_d_inj in Heq. contradiction.
Qed.

Lemma IPProto_String_distinct_example :
  IPProto_String IPPROTO_TCP <> IPProto_String IPPROTO_UDP
  /\ IPProto_String 1 <> IPProto_String 10
  /\ IPProto_String 6 <> IPProto_String 60.
Proof.
  split; [|split]; apply IPProto_String_distinct; discriminate.
Defined.

(** X2: a service identified by firewall mark and one identified by
    address never render to the same string. *)
Theorem Service_String_modes_apart (f g : IP -> string) (a b : Service) :
  0 < FWMark a -> FWMark b = 0 -> Service_String f a <> Service_String g b.
Proof.
  intros Ha Hb. unfold Service_String. rewrite Hb.
  destruct (Z.ltb_spec 0 (FWMark a)); [|lia]. simpl.
  unfold IPProto_String.
  destruct (To4 (Address b)); destruct (Protocol b =? IPPROTO_TCP);
    destruct (Protocol b =? IPPROTO_UDP); discriminate.
Qed.

Lemma Service_String_modes_apart_example :
  Service_String (fun _ => "10.0.0.1") marked <> Service_String (fun _ => "10.0.0.1") web.
Proof.
  apply Service_String_modes_apart.
  - simpl. lia.
  - reflexivity.
Defined.

(** X3: in firewall-mark mode the string tells the service apart: two
    marked services with the same string have the same mark and the same
    scheduler name. *)
Theorem Service_String_fwmark_determines (f g : IP -> string) (a b : Service) :
  0 < FWMark a -> 0 < FWMark b ->
  Service_String f a = Service_String g b ->
  FWMark a = FWMark b /\ SchedName a = SchedName b.
Proof.
  intros Ha Hb. unfold Service_String.
  destruct (Z.ltb_spec 0 (FWMark a)); [|lia].
  destruct (Z.ltb_spec 0 (FWMark b)); [|lia].
  intros Heq. apply String.app_inj in Heq.
  change (fmt_d (FWMark a) +:+ String " " ("(" +:+ SchedName a +:+ ")")
          = fmt_d (FWMark b) +:+ String " " ("(" +:+ SchedName b +:+ ")")) in Heq.
  apply (digits_then_mark " " _ _ _ _ eq_refl) in Heq;
    [|apply fmt_d_digits; lia|apply fmt_d_digits; lia].
  destruct Heq as [Hd Hs]. apply String.app_inj, append_cancel_r in Hs.
  split; [apply fmt_d_inj; exact Hd | exact Hs].
Qed.

Lemma Service_String_fwmark_determines_example :
  FWMark marked = 7 /\ SchedName marked = "wlc".
Proof.
  apply (Service_String_fwmark_determines (fun _ => "a") (fun _ => "b") marked
           {| Address := []; Protocol := 0; Port := 0; FWMark := 7; SchedName := "wlc";
              Flags := 0; Timeout := 0; Netmask := 0; AddressFamily := 0; PEName := "";
              Stats := assembleStats [] |}).
  - simpl. lia.
  - simpl. lia.
  - reflexivity.
Defined.

(** X4: different versions never print alike: [Version.String] is
    injective on versions whose fields are not negative. *)
Theorem Version_String_distinct (v v' : Version) :
  0 <= Major v -> 0 <= Minor v -> 0 <= Patch v ->
  0 <= Major v' -> 0 <= Minor v' -> 0 <= Patch v' ->
  v <> v' -> Version_String v <> Version_String v'.
Proof.
  intros HM Hm Hp HM' Hm' Hp' Hne Heq. apply Hne. clear Hne.
  unfold Version_String in Heq.
  change (fmt_d (Major v) +:+ String "." (fmt_d (Minor v) +:+ String "." (fmt_d (Patch v)))
          = fmt_d (Major v') +:+ String "." (fmt_d (Minor v') +:+ String "." (fmt_d (Patch v'))))
    in Heq.
  apply (digits_then_mark "." _ _ _ _ eq_refl) in Heq; try (apply fmt_d_digits; lia).
  destruct Heq as [HMe Heq].
  apply (digits_then_mark "." _ _ _ _ eq_refl) in Heq; try (apply fmt_d_digits; lia).
  destruct Heq as [Hme Hpe].
  apply fmt_d_inj in HMe, Hme, Hpe.
  destruct v, v'; simpl in *; congruence.
Qed.

Lemma Version_String_distinct_example :
  Version_String {| Major := 1; Minor := 21; Patch := 3 |}
  <> Version_String {| Major := 12; Minor := 1; Patch := 3 |}
  /\ Version_String {| Major := 1; Minor := 21; Patch := 3 |} = "1.21.3".
Proof.
  split; [|reflexivity].
  apply Version_String_distinct; simpl; try lia. discriminate.
Defined.

(** ** GetInfo and GetService *)

Lemma low_bits_decide_field (v v' k : Z) :
  0 <= k <= 16 -> v mod 2 ^ 24 = v' mod 2 ^ 24 ->
  Z.land (Z.shiftr v k) 0xff = Z.land (Z.shiftr v' k) 0xff.
Proof.
  intros Hk Hlow. apply Z.bits_inj'. intros i Hi.
  rewrite !Z.land_spec, !Z.shiftr_spec by lia.
  change 0xff with (Z.ones 8).
  destruct (Z.lt_ge_cases i 8) as [Hlt|Hge].
  - rewrite <- (Z.mod_pow2_bits_low v 24 (i + k)) by lia.
    rewrite <- (Z.mod_pow2_bits_low v' 24 (i + k)) by lia.
    rewrite Hlow. reflexivity.
  - rewrite Z.ones_spec_high by lia. rewrite !andb_false_r. reflexivity.
Qed.

Section MoreGetters.

Context `{Netlink}.

(** X5: [GetInfo] undoes the packing of a version: for three fields of
    at most 255 each, the word major*65536 + minor*256 + patch comes back
    as exactly those three fields. *)
Theorem GetInfo_unpacks_packed_version (major minor patch c : Z) (st st' : Env) :
  0 <= major <= 255 -> 0 <= minor <= 255 -> 0 <= patch <= 255 ->
  doGetInfoCmd st
  = Returned ((Some {| version := major * 2 ^ 16 + minor * 2 ^ 8 + patch;
                       connTableSize := c |}, None), st') ->
  GetInfo st
  = Returned ((Some {| info_Version :=
                         Some {| Major := major; Minor := minor; Patch := patch |};
                       ConnTableSize := c |}, None), st').
Proof.
  intros HM Hm Hp Hcmd. unfold GetInfo. unfold_monad. rewrite Hcmd. simpl.
  set (v := major * 2 ^ 16 + minor * 2 ^ 8 + patch).
  assert (Hv : 0 <= v < 2 ^ 32) by (unfold v; lia).
  rewrite to_uint_small by exact Hv.
  rewrite (byte_field_value v 16), (byte_field_value v 8) by lia.
  replace (Z.land v 0xff) with (v mod 2 ^ 8)
    by (rewrite <- (Z.shiftr_0_r v) at 2; rewrite (byte_field_value v 0) by lia;
        rewrite Z.pow_0_r, Z.div_1_r; reflexivity).
  assert (HvM : v / 2 ^ 16 = major)
    by (unfold v; symmetry; apply (Z.div_unique _ _ _ (minor * 2 ^ 8 + patch)); lia).
  assert (Hvm : v / 2 ^ 8 = major * 2 ^ 8 + minor)
    by (unfold v; symmetry; apply (Z.div_unique _ _ _ patch); lia).
  assert (Hvp : v mod 2 ^ 8 = patch)
    by (unfold v; symmetry; apply (Z.mod_unique _ _ (major * 2 ^ 8 + minor)); lia).
  rewrite HvM, Hvm, Hvp.
  rewrite (Z.mod_small major) by lia.
  replace ((major * 2 ^ 8 + minor) mod 2 ^ 8) with minor
    by (apply (Z.mod_unique _ _ major); lia).
  reflexivity.
Qed.

(** X6: [GetInfo] drops bits 24-31 of the version word: two words that
    agree on their low 24 bits give the same Version. *)
Theorem GetInfo_ignores_top_byte (v v' c c' : Z) (st1 st1' st2 st2' : Env) :
  0 <= v < 2 ^ 32 -> 0 <= v' < 2 ^ 32 ->
  v mod 2 ^ 24 = v' mod 2 ^ 24 ->
  doGetInfoCmd st1 = Returned ((Some {| version := v; connTableSize := c |}, None), st1') ->
  doGetInfoCmd st2 = Returned ((Some {| version := v'; connTableSize := c' |}, None), st2') ->
  exists ver,
    GetInfo st1 = Returned ((Some {| info_Version := Some ver; ConnTableSize := c |}, None), st1')
    /\ GetInfo st2
       = Returned ((Some {| info_Version := Some ver; ConnTableSize := c' |}, None), st2').
Proof.
  intros Hv Hv' Hlow H1 H2. unfold GetInfo. unfold_monad. rewrite H1, H2. simpl.
  rewrite !to_uint_small by assumption.
  rewrite (low_bits_decide_field v v' 16), (low_bits_decide_field v v' 8) by (lia || assumption).
  pose proof (low_bits_decide_field v v' 0 ltac:(lia) Hlow) as H0.
  rewrite !Z.shiftr_0_r in H0. rewrite H0.
  eexists. split; reflexivity.
Qed.

(** X7: whenever [GetService] or [GetInfo] returns, it does not return
    both a value and an error.  [GetService] returns an error and no
    service, or no error and the single result of its helper, [res[0]],
    handed on as it is; [GetInfo] returns an error and no Info, or an
    Info and no error.  Either way the handle and the world are exactly
    as the helper left them. *)
Theorem getters_never_return_both (s : Service) (st : Env) :
  (forall r st', GetService s st = Returned (r, st') ->
     (forall v e, r <> (Some v, Some e))
     /\ ((exists res,
            doGetServicesCmd (Some s) st = Returned ((res, None), st')
            /\ length res = 1%nat /\ r = (res !! 0%nat, None))
         \/ (exists e r0,
               doGetServicesCmd (Some s) st = Returned (r0, st')
               /\ r = (None, Some e))))
  /\ (forall r st', GetInfo st = Returned (r, st') ->
     (forall v e, r <> (Some v, Some e))
     /\ (exists r0, doGetInfoCmd st = Returned (r0, st'))
     /\ ((exists info, r = (Some info, None)) \/ (exists e, r = (None, Some e)))).
Proof.
  split; intros r st'.
  - unfold GetService. unfold_monad.
    destruct (doGetServicesCmd (Some s) st) as [[[res err] st1]|]; [|discriminate].
    destruct err as [e|]; simpl.
    + intros [= <- <-]. split; [discriminate|]. right. eauto.
    + destruct (Nat.eqb_spec (length res) 1) as [Hone|Hmany]; simpl.
      * intros [= <- <-]. split; [discriminate|]. left. eauto.
      * intros [= <- <-]. split; [discriminate|]. right. eauto.
  - unfold GetInfo. unfold_monad.
    destruct (doGetInfoCmd st) as [[[res err] st1]|]; [|discriminate].
    destruct err as [e|]; simpl.
    + intros [= <- <-]. split; [discriminate|]. eauto.
    + destruct res as [res|]; [|discriminate]. intros [= <- <-].
      split; [discriminate|]. eauto.
Qed.

(** X8: the methods change the handle and the world only through their
    helpers: a property of the state that every helper keeps is kept by
    every method, and by every sequence of method calls. *)
Theorem methods_keep_what_helpers_keep (P : Env -> Prop) :
  helpers_preserve P ->
  (forall op, preserves P (call op))
  /\ (forall ops, preserves P (call_all ops)).
Proof.
  intros (HdoCmd & HdoCmd2 & Hnoattr & Hsvcs & Hdsts & Hladdrs & Hgetc & Hsetc
          & Hinfo & Hdmn & Hnewd & Hdeld).
  assert (Hcall : forall op, preserves P (call op)).
  { intros op st a st' HP.
    destruct op; unfold_api; unfold_monad;
      match goal with
      | |- context [match ?m st with _ => _ end] =>
          destruct (m st) as [[r st1]|] eqn:Hrun; [|discriminate]
      end;
      match type of Hrun with
      | doCmd _ _ _ _ = _ => pose proof (HdoCmd _ _ _ _ _ _ HP Hrun)
      | doCmd2 _ _ _ _ = _ => pose proof (HdoCmd2 _ _ _ _ _ _ HP Hrun)
      | doCmdWithoutAttr _ _ = _ => pose proof (Hnoattr _ _ _ _ HP Hrun)
      | doGetServicesCmd _ _ = _ => pose proof (Hsvcs _ _ _ _ HP Hrun)
      | doGetDestinationsCmd _ _ _ = _ => pose proof (Hdsts _ _ _ _ _ HP Hrun)
      | doGetLocalAddressesCmd _ _ _ = _ => pose proof (Hladdrs _ _ _ _ _ HP Hrun)
      | doGetConfigCmd _ = _ => pose proof (Hgetc _ _ _ HP Hrun)
      | doSetConfigCmd _ _ = _ => pose proof (Hsetc _ _ _ _ HP Hrun)
      | doGetInfoCmd _ = _ => pose proof (Hinfo _ _ _ HP Hrun)
      | doGetDaemonCmd _ _ = _ => pose proof (Hdmn _ _ _ _ HP Hrun)
      | doNewDaemonCmd _ _ = _ => pose proof (Hnewd _ _ _ _ HP Hrun)
      | doDelDaemonCmd _ _ = _ => pose proof (Hdeld _ _ _ _ HP Hrun)
      end;
      simpl; repeat case_match; intros; simplify_eq; assumption. }
  split; [exact Hcall|].
  induction ops as [|op ops IH]; intros st a st' HP; simpl; unfold_monad.
  - intros [= _ <-]. exact HP.
  - destruct (call op st) as [[a1 st1]|] eqn:Hop; [|discriminate].
    destruct (call_all ops st1) as [[l st2]|] eqn:Hrest; [|discriminate].
    intros [= _ <-]. eapply IH; [|exact Hrest]. eapply Hcall; eassumption.
Qed.

End MoreGetters.

Lemma GetInfo_unpacks_example :
  answer_of (GetInfo (H := Model.netlink) (lab_handle, lab (reporting 0x010201)))
  = Some (Some {| info_Version := Some {| Major := 1; Minor := 2; Patch := 1 |};
                  ConnTableSize := 4096 |}, None).
Proof.
  erewrite (GetInfo_unpacks_packed_version (H := Model.netlink) 1 2 1 4096
              (lab_handle, lab (reporting 0x010201))).
  - reflexivity.
  - lia.
  - lia.
  - lia.
  - vm_compute. reflexivity.
Defined.

Lemma GetInfo_ignores_top_byte_example :
  fst <$> answer_of (GetInfo (H := Model.netlink) (lab_handle, lab (reporting 0x010201)))
  = fst <$> answer_of (GetInfo (H := Model.netlink) (lab_handle, lab (reporting 0xab010201))).
Proof.
  edestruct (GetInfo_ignores_top_byte (H := Model.netlink))
    with (v := 0x010201) (v' := 0xab010201) (c := 4096) (c' := 4096)
         (st1 := (lab_handle, lab (reporting 0x010201)))
         (st2 := (lab_handle, lab (reporting 0xab010201)))
    as (ver & Hrun1 & Hrun2).
  - lia.
  - lia.
  - reflexivity.
  - vm_compute. reflexivity.
  - vm_compute. reflexivity.
  - rewrite Hrun1, Hrun2. reflexivity.
Defined.

Lemma getters_never_return_both_example :
  answer_of (GetService (H := Model.netlink) web
               (lab_handle, lab (canned 1 [fillService web])))
  = Some (Some (parseService [fillService web]), None)
  /\ (forall v e,
        answer_of (GetService (H := Model.netlink) web
                     (lab_handle, lab (refusing (-2))))
        <> Some (Some v, Some e)).
Proof.
  split.
  - destruct (GetService (H := Model.netlink) web
                (lab_handle, lab (canned 1 [fillService web]))) as [[r st']|msg] eqn:Hrun;
      [|vm_compute in Hrun; discriminate Hrun].
    destruct (getters_never_return_both (H := Model.netlink) web
                (lab_handle, lab (canned 1 [fillService web]))) as [Hget _].
    destruct (Hget r st' Hrun) as [_ [(res & Hres & _ & ->)|(e & r0 & _ & ->)]].
    + vm_compute in Hres. injection Hres as <- _. reflexivity.
    + vm_compute in Hrun. discriminate Hrun.
  - intros v e.
    destruct (GetService (H := Model.netlink) web (lab_handle, lab (refusing (-2))))
      as [[r st']|msg] eqn:Hrun; [|discriminate].
    destruct (getters_never_return_both (H := Model.netlink) web
                (lab_handle, lab (refusing (-2)))) as [Hget _].
    destruct (Hget r st' Hrun) as [Hnot _]. simpl. intros [= Heq]. exact (Hnot v e Heq).
Defined.

(** The modelled helpers never move the handle to another socket and
    never add or drop a socket. *)
Lemma exchange_keeps_shape (s : option SockRef) (n : nat) (cmd : Cmd) (dump : bool)
    (attrs : list Attr) : preserves (shape s n) (Model.exchange cmd dump attrs).
Proof.
  intros [i w] r [i' w'] [Hsock Hlen].
  unfold Model.exchange, Model.newIPVSRequest, Model.execute, Model.Send, Model.Receive.
  unfold_monad. simpl in *. unfold usable.
  destruct (sock i) as [fd|]; [|discriminate].
  destruct (sockets w !! fd) as [sk|] eqn:Hsk; simpl; [|intros [= _ <- <-]; split; assumption].
  destruct (sk_closed sk) eqn:Hopen; simpl; [intros [= _ <- <-]; split; assumption|].
  match goal with |- context [send_fault w ?rq] => destruct (send_fault w rq) end;
    simpl; [intros [= _ <- <-]; split; assumption|].
  rewrite list_lookup_alter_eq, Hsk. simpl. rewrite Hopen.
  match goal with |- context [let '(_, _) := ?x in _] => destruct x as [a rest] end.
  intros [= _ <- <-]. split; [exact Hsock|]. simpl. rewrite !length_alter. exact Hlen.
Qed.

Lemma model_helpers_keep_shape (s : option SockRef) (n : nat) :
  helpers_preserve (H := Model.netlink) (shape s n).
Proof.
  unfold helpers_preserve, preserves. repeat split; intros;
    match goal with
    | HP0 : shape s n _, Hrun0 : _ = Returned _ |- _ => rename HP0 into HP, Hrun0 into Hrun
    end;
    cbn [Model.netlink doCmd doCmd2 doCmdWithoutAttr doGetServicesCmd
         doGetDestinationsCmd doGetLocalAddressesCmd doGetConfigCmd doSetConfigCmd
         doGetInfoCmd doGetDaemonCmd doNewDaemonCmd doDelDaemonCmd] in Hrun;
    unfold Model.doCmd, Model.doCmd2, Model.doCmdWithoutAttr, Model.doGetServicesCmd,
      Model.doGetDestinationsCmd, Model.doGetLocalAddressesCmd, Model.doGetConfigCmd,
      Model.doSetConfigCmd, Model.doGetInfoCmd, Model.doGetDaemonCmd,
      Model.doNewDaemonCmd, Model.doDelDaemonCmd in Hrun;
    unfold_monad; simpl in Hrun.
  all: repeat match type of Hrun with
         | context [option_bind _ _ _ ?x] => destruct x; simpl in Hrun
         | context [checkService ?x] => destruct (checkService x); simpl in Hrun
         | context [checkDestination ?x] => destruct (checkDestination x); simpl in Hrun
         | context [mixed_family ?a ?b] => destruct (mixed_family a b); simpl in Hrun
         end.
  all: try (simplify_eq; apply HP).
  all: match type of Hrun with
       | context [Model.exchange ?c ?d ?xs ?st0] =>
           destruct (Model.exchange c d xs st0) as [[r1 st1]|] eqn:Hex;
           [|discriminate Hrun]
       end.
  all: pose proof (exchange_keeps_shape s n _ _ _ _ _ _ HP Hex) as HP1.
  all: destruct r1; repeat case_match; simplify_eq; apply HP1.
Qed.

Lemma methods_keep_shape_example :
  exists answers st',
    call_all (H := Model.netlink)
      [OpNewService web; OpGetService web; OpGetInfo; OpFlush; OpIsServicePresent marked]
      (lab_handle, lab (canned 1 [fillService web]))
    = Returned (answers, st')
    /\ shape (Some 0%nat) 1 st'.
Proof.
  destruct (call_all (H := Model.netlink)
              [OpNewService web; OpGetService web; OpGetInfo; OpFlush;
               OpIsServicePresent marked]
              (lab_handle, lab (canned 1 [fillService web])))
    as [[answers st']|msg] eqn:Hrun; [|vm_compute in Hrun; discriminate Hrun].
  exists answers, st'. split; [reflexivity|].
  destruct (methods_keep_what_helpers_keep (H := Model.netlink) (shape (Some 0%nat) 1)
              (model_helpers_keep_shape (Some 0%nat) 1)) as [_ Hall].
  eapply Hall; [|exact Hrun]. split; reflexivity.
Defined.

(** ** New and Close *)

Lemma alter_last (f : Socket -> Socket) (l : list Socket) (x : Socket) :
  alter f (length l) (l ++ [x]) = l ++ [f x].
Proof.
  rewrite alter_app_r_alt by lia. rewrite Nat.sub_diag. reflexivity.
Qed.

Section MoreNew.

Context `{Netlink}.

(** X9: [New] gives back the namespace handle it took: on every return
    after the namespace was found, with a handle or with an error, the
    namespace is no longer open, and the other open namespaces are as
    [setup] left them. *)
Theorem New_releases_namespace (path : string) (w w' : World) (n : NsHandle)
    (r : option Handle * option error) :
  resolved (setup w) path n ->
  New path w = Returned (r, w') ->
  (n ∉ open_ns w')
  /\ (forall m, m <> n -> (m ∈ open_ns w' <-> m ∈ open_ns (setup w))).
Proof.
  intros Hres. unfold_New. set (w0 := setup w) in *. use_resolved Hres.
  all: repeat (case_match; simplify_eq/=); intros; simplify_eq/=.
  all: split; [rewrite list_elem_of_filter; tauto|].
  all: intros m Hm; rewrite list_elem_of_filter; try rewrite elem_of_cons; tauto.
Qed.

(** X10: when setting the send or the receive timeout is refused, [New]
    returns that error and no handle, and the socket it had opened stays
    in the socket table, not closed. *)
Theorem New_leaves_socket_when_timeout_refused (path : string) (w : World)
    (n : NsHandle) (e : error) :
  resolved (setup w) path n ->
  socket_fault (setup w) n = None ->
  sndtimeo_fault (setup w) (length (sockets (setup w))) {| tv_sec := 30; tv_usec := 0 |}
    = Some e
  \/ (sndtimeo_fault (setup w) (length (sockets (setup w))) {| tv_sec := 30; tv_usec := 0 |}
      = None
      /\ rcvtimeo_fault (setup w) (length (sockets (setup w))) {| tv_sec := 3; tv_usec := 0 |}
         = Some e) ->
  exists w' sk,
    New path w = Returned ((None, Some e), w')
    /\ sockets w' = sockets (setup w) ++ [sk]
    /\ sk_closed sk = false
    /\ sk_ns sk = n.
Proof.
  intros Hres Hopen Hfault. unfold_New. set (w0 := setup w) in *. use_resolved Hres.
  all: rewrite Hopen; simpl.
  all: destruct Hfault as [Hsnd|[Hsnd Hrcv]]; rewrite Hsnd; simpl; try rewrite Hrcv; simpl.
  all: eexists _, _; split; [reflexivity|]; simpl.
  all: rewrite ?alter_last; repeat split; reflexivity.
Qed.

(** X11: [New] leaves every socket that existed untouched, on every
    return; the handle it returns starts at sequence number 0 and holds a
    socket that did not exist before. *)
Theorem New_spares_existing_sockets (path : string) (w w' : World)
    (r : option Handle * option error) :
  New path w = Returned (r, w') ->
  (forall fd sk, sockets (setup w) !! fd = Some sk -> sockets w' !! fd = Some sk)
  /\ (forall i, r.1 = Some i ->
        sock i = Some (length (sockets (setup w)))
        /\ seq i = 0
        /\ length (sockets w') = S (length (sockets (setup w)))).
Proof.
  unfold_New. set (w0 := setup w) in *.
  repeat (case_match; simplify_eq/=); intros; simplify_eq/=.
  all: rewrite ?alter_last.
  all: split; [intros fd sk Hfd; try (apply lookup_app_l_Some); exact Hfd|].
  all: intros i [= <-] || intros i [=].
  all: simpl; rewrite length_app; simpl; split; [reflexivity|split; [reflexivity|lia]].
Qed.

(** X12: the socket of the returned handle was opened in the namespace
    the path names, and in the caller's own namespace when the path is
    empty. *)
Theorem New_socket_lives_in_named_namespace (path : string) (w w' : World)
    (n : NsHandle) (i : Handle) :
  resolved (setup w) path n ->
  New path w = Returned ((Some i, None), w') ->
  exists s sk, sock i = Some s /\ sockets w' !! s = Some sk /\ sk_ns sk = n.
Proof.
  intros Hres. unfold_New. set (w0 := setup w) in *. use_resolved Hres.
  all: repeat (case_match; simplify_eq/=); intros; simplify_eq/=.
  all: rewrite !alter_last; eexists _, _; split; [reflexivity|].
  all: rewrite list_lookup_middle by reflexivity; split; reflexivity.
Qed.

(** X13: when the socket cannot be opened, [New] returns the transport's
    error and no handle, the socket table is as [setup] left it, and the
    namespace is released. *)
Theorem New_socket_error (path : string) (w : World) (n : NsHandle) (e : error) :
  resolved (setup w) path n ->
  socket_fault (setup w) n = Some e ->
  exists w',
    New path w = Returned ((None, Some e), w')
    /\ sockets w' = sockets (setup w)
    /\ (n ∉ open_ns w').
Proof.
  intros Hres Hfault. unfold_New. set (w0 := setup w) in *. use_resolved Hres.
  all: rewrite Hfault; simpl; eexists; split; [reflexivity|]; simpl.
  all: split; [reflexivity|rewrite list_elem_of_filter; tauto].
Qed.

(** X16: a handle from [New] holds a usable socket; [Close] on it makes
    that socket unusable and still leaves every socket that existed
    before [New] untouched. *)
Theorem New_then_Close (path : string) (w w1 : World) (i : Handle) :
  New path w = Returned ((Some i, None), w1) ->
  exists s w2,
    sock i = Some s
    /\ usable w1 s = true
    /\ Close (i, w1) = Returned (tt, (i, w2))
    /\ usable w2 s = false
    /\ (forall fd sk, sockets (setup w) !! fd = Some sk -> sockets w2 !! fd = Some sk).
Proof.
  unfold_New. set (w0 := setup w) in *.
  repeat (case_match; simplify_eq/=); intros; simplify_eq/=.
  all: eexists _, _; split; [reflexivity|].
  all: unfold Close, NetlinkSocket_Close, usable; unfold_monad; simpl.
  all: rewrite !alter_last.
  all: split; [rewrite list_lookup_middle by reflexivity; reflexivity|].
  all: split; [reflexivity|]; simpl; rewrite !alter_last.
  all: split; [rewrite list_lookup_middle by reflexivity; reflexivity|].
  all: intros fd sk Hfd; apply lookup_app_l_Some; exact Hfd.
Qed.

End MoreNew.

(** X14: closing twice is closing once: a second [Close] changes
    nothing. *)
Theorem Close_twice_is_Close (i : Handle) (w : World) :
  (Close;; Close) (i, w) = Close (i, w).
Proof.
  unfold Close, NetlinkSocket_Close. unfold_monad. cbv beta iota delta [fst].
  destruct (sock i) as [s|] eqn:Hsock; rewrite Hsock; [|reflexivity].
  do 3 f_equal. unfold with_sockets. simpl. f_equal.
  rewrite list_alter_alter_eq. apply list_alter_ext; [|reflexivity].
  intros sk _. reflexivity.
Qed.

(** X15: [Close] touches the handle's own socket only, and only its
    closed mark: every other socket is as it was, no socket is added or
    dropped, and what each socket sent, has queued and was configured
    with stays. *)
Theorem Close_spares_other_sockets (i : Handle) (w w' : World) :
  Close (i, w) = Returned (tt, (i, w')) ->
  (forall fd, sock i <> Some fd -> sockets w' !! fd = sockets w !! fd)
  /\ (forall fd sk', sockets w' !! fd = Some sk' ->
        exists sk, sockets w !! fd = Some sk
                   /\ sk_sent sk' = sk_sent sk /\ sk_inbox sk' = sk_inbox sk
                   /\ sk_sndtimeo sk' = sk_sndtimeo sk /\ sk_rcvtimeo sk' = sk_rcvtimeo sk
                   /\ sk_ns sk' = sk_ns sk)
  /\ length (sockets w') = length (sockets w)
  /\ open_ns w' = open_ns w.
Proof.
  unfold Close, NetlinkSocket_Close. unfold_monad. simpl.
  destruct (sock i) as [s|]; intros [= <-]; simpl.
  - split; [intros fd Hfd; apply list_lookup_alter_ne; congruence|].
    split; [|split; [apply length_alter|reflexivity]].
    intros fd sk'. destruct (decide (s = fd)) as [->|Hne].
    + rewrite list_lookup_alter_eq. destruct (sockets w !! fd) as [sk|]; [|discriminate].
      intros [= <-]. exists sk. auto 7.
    + rewrite list_lookup_alter_ne by exact Hne. intros Hfd. exists sk'. auto 7.
  - split; [reflexivity|]. split; [|split; reflexivity].
    intros fd sk' Hfd. exists sk'. auto 7.
Qed.

Lemma New_releases_namespace_example :
  exists r w',
    New (H := Model.netlink) "/var/run/netns/blue" (lab_faults None None (Some (Errno 22)))
    = Returned (r, w')
    /\ r = (None, Some (Errno 22))
    /\ (7 ∉ open_ns w').
Proof.
  destruct (New (H := Model.netlink) "/var/run/netns/blue"
              (lab_faults None None (Some (Errno 22)))) as [[r w']|msg] eqn:Hrun;
    [|vm_compute in Hrun; discriminate Hrun].
  exists r, w'. split; [reflexivity|]. split.
  - vm_compute in Hrun. injection Hrun as <- _. reflexivity.
  - apply (New_releases_namespace (H := Model.netlink) "/var/run/netns/blue"
             (lab_faults None None (Some (Errno 22))) w' 7 r); [|exact Hrun].
    right. split; [discriminate|reflexivity].
Defined.

Lemma New_leaves_socket_example :
  exists w' sk,
    New (H := Model.netlink) "" (lab_faults None (Some (Errno 22)) None)
    = Returned ((None, Some (Errno 22)), w')
    /\ sockets w' = [fresh_socket netns_None] ++ [sk]
    /\ sk_closed sk = false
    /\ sk_ns sk = netns_None.
Proof.
  apply (New_leaves_socket_when_timeout_refused (H := Model.netlink) ""
           (lab_faults None (Some (Errno 22)) None) netns_None (Errno 22)).
  - left. split; reflexivity.
  - reflexivity.
  - left. reflexivity.
Defined.

Lemma New_spares_existing_sockets_example :
  exists r w',
    New (H := Model.netlink) "" (lab no_kernel) = Returned (r, w')
    /\ sockets w' !! 0%nat = Some (fresh_socket netns_None)
    /\ (forall i, r.1 = Some i -> sock i = Some 1%nat /\ seq i = 0
                                   /\ length (sockets w') = 2%nat).
Proof.
  destruct (New (H := Model.netlink) "" (lab no_kernel)) as [[r w']|msg] eqn:Hrun;
    [|vm_compute in Hrun; discriminate Hrun].
  destruct (New_spares_existing_sockets (H := Model.netlink) "" (lab no_kernel) w' r Hrun)
    as [Hkeep Hfresh].
  exists r, w'. split; [reflexivity|]. split; [apply Hkeep; reflexivity|exact Hfresh].
Defined.

Lemma New_namespace_example :
  exists i w' sk,
    New (H := Model.netlink) "/var/run/netns/blue" (lab no_kernel)
    = Returned ((Some i, None), w')
    /\ sockets w' !! 1%nat = Some sk /\ sk_ns sk = 7.
Proof.
  destruct (New (H := Model.netlink) "/var/run/netns/blue" (lab no_kernel))
    as [[[[i|] [e|]] w']|msg] eqn:Hrun; try (vm_compute in Hrun; discriminate Hrun).
  destruct (New_socket_lives_in_named_namespace (H := Model.netlink)
              "/var/run/netns/blue" (lab no_kernel) w' 7 i) as (s & sk & Hs & Hsk & Hns).
  - right. split; [discriminate|reflexivity].
  - exact Hrun.
  - exists i, w', sk. split; [reflexivity|]. split; [|exact Hns].
    vm_compute in Hrun. injection Hrun as <- <-. injection Hs as <-. exact Hsk.
Defined.

Lemma New_socket_error_example :
  exists w',
    New (H := Model.netlink) "/var/run/netns/blue" (lab_faults (Some (Errno 24)) None None)
    = Returned ((None, Some (Errno 24)), w')
    /\ sockets w' = [fresh_socket netns_None]
    /\ (7 ∉ open_ns w').
Proof.
  apply (New_socket_error (H := Model.netlink) "/var/run/netns/blue"
           (lab_faults (Some (Errno 24)) None None) 7 (Errno 24)).
  - right. split; [discriminate|reflexivity].
  - reflexivity.
Defined.

Lemma New_then_Close_example :
  exists i w1 w2,
    New (H := Model.netlink) "" (lab no_kernel) = Returned ((Some i, None), w1)
    /\ usable w1 1 = true
    /\ Close (i, w1) = Returned (tt, (i, w2))
    /\ usable w2 1 = false
    /\ usable w2 0 = true.
Proof.
  destruct (New (H := Model.netlink) "" (lab no_kernel))
    as [[[[i|] [e|]] w1]|msg] eqn:Hrun; try (vm_compute in Hrun; discriminate Hrun).
  destruct (New_then_Close (H := Model.netlink) "" (lab no_kernel) w1 i Hrun)
    as (s & w2 & Hs & Hlive & Hclose & Hdead & Hkeep).
  assert (s = 1%nat) as ->
    by (vm_compute in Hrun; injection Hrun as <- _; injection Hs as <-; reflexivity).
  exists i, w1, w2. split; [reflexivity|]. split; [exact Hlive|].
  split; [exact Hclose|]. split; [exact Hdead|].
  unfold usable. rewrite (Hkeep 0%nat (fresh_socket netns_None) eq_refl). reflexivity.
Defined.

Lemma Close_spares_other_sockets_example :
  sockets closed_lab !! 1%nat = sockets (lab no_kernel) !! 1%nat
  /\ length (sockets closed_lab) = 1%nat
  /\ open_ns closed_lab = [].
Proof.
  destruct (Close_spares_other_sockets lab_handle (lab no_kernel) closed_lab eq_refl)
    as (Hother & _ & Hlen & Hns).
  split; [apply Hother; discriminate|]. split; [exact Hlen|exact Hns].
Defined.
